(** * Executor graph construction and the executor life cycle

    A shallow embedding of [src/executor/Executor.cpp] (nebula graph):
    the builder [Executor::create] / [Executor::makeExecutor], the base
    class constructor, and the methods [open], [close], [start], [error]
    and [finish].

    Pointers into the object pool are indices into a list; the plan is an
    immutable acyclic pointer structure, which is represented by a finite
    tree in which a node that has several parents occurs once below each
    of them (the builder reads plan nodes only, so it cannot tell the two
    representations apart; it recognises a node by [PlanNode::id]). *)

From Stdlib Require Import ZArith.
From stdpp Require Import base option list gmap strings.

Local Open Scope Z_scope.

(** ** Plan nodes *)

Module PlanNode.

(** [PlanNode::Kind]: the enumerators that [Executor::makeExecutor]
    switches over. *)
Inductive Kind : Set :=
| kUnknown
| kPassThrough | kAggregate | kSort | kFilter | kGetEdges | kGetVertices
| kGetNeighbors | kLimit | kProject | kIndexScan | kStart | kUnion
| kIntersect | kMinus | kLoop | kSelect | kDedup | kSwitchSpace
| kCreateSpace | kDescSpace | kShowSpaces | kDropSpace | kShowCreateSpace
| kCreateTag | kDescTag | kAlterTag | kCreateEdge | kDescEdge | kAlterEdge
| kShowTags | kShowEdges | kDropTag | kDropEdge | kShowCreateTag
| kShowCreateEdge | kInsertVertices | kInsertEdges | kDataCollect
| kCreateSnapshot | kDropSnapshot | kShowSnapshots | kDataJoin
| kDeleteVertices | kDeleteEdges | kUpdateVertex | kUpdateEdge
| kCreateUser | kDropUser | kUpdateUser | kGrantRole | kRevokeRole
| kChangePassword | kListUserRoles | kListUsers | kListRoles
| kBalanceLeaders | kBalance | kStopBalance | kShowBalance | kShowConfigs
| kSetConfig | kGetConfig | kSubmitJob | kShowHosts | kShowParts
| kShowCharset | kShowCollation.

(** A plan node, as far as the builder reads it: [id()], [kind()],
    [dependencies()], [outputVar()], and the control children [then()]
    and [otherwise()] of the class [Select] and [body()] of the class
    [Loop]. A control child is [None] when the pointer is null (a node of
    another class has none). The entries of [dependencies()] are taken
    to be non-null, as [DCHECK(node != nullptr)] asks. *)
#[local] Unset Elimination Schemes.
Inductive t : Type :=
  Node { id : Z;
         kind : Kind;
         dependencies : list t;
         outputVar : string;
         then_ : option t;
         otherwise_ : option t;
         body : option t }.
#[local] Set Elimination Schemes.

#[global] Instance Kind_eq_dec : EqDecision Kind.
Proof. solve_decision. Defined.

End PlanNode.

(** ** Executors *)

(** The executor classes that the kind dispatch instantiates. *)
Inductive ExecutorClass : Set :=
  | PassThroughExecutor | AggregateExecutor | SortExecutor | FilterExecutor
  | GetEdgesExecutor | GetVerticesExecutor | GetNeighborsExecutor
  | LimitExecutor | ProjectExecutor | IndexScanExecutor | StartExecutor
  | UnionExecutor | IntersectExecutor | MinusExecutor | LoopExecutor
  | SelectExecutor | DedupExecutor | SwitchSpaceExecutor
  | CreateSpaceExecutor | DescSpaceExecutor | ShowSpacesExecutor
  | DropSpaceExecutor | ShowCreateSpaceExecutor | CreateTagExecutor
  | DescTagExecutor | AlterTagExecutor | CreateEdgeExecutor
  | DescEdgeExecutor | AlterEdgeExecutor | ShowTagsExecutor
  | ShowEdgesExecutor | DropTagExecutor | DropEdgeExecutor
  | ShowCreateTagExecutor | ShowCreateEdgeExecutor | InsertVerticesExecutor
  | InsertEdgesExecutor | DataCollectExecutor | CreateSnapshotExecutor
  | DropSnapshotExecutor | ShowSnapshotsExecutor | DataJoinExecutor
  | DeleteVerticesExecutor | DeleteEdgesExecutor | UpdateVertexExecutor
  | UpdateEdgeExecutor | CreateUserExecutor | DropUserExecutor
  | UpdateUserExecutor | GrantRoleExecutor | RevokeRoleExecutor
  | ChangePasswordExecutor | ListUserRolesExecutor | ListUsersExecutor
  | ListRolesExecutor | BalanceLeadersExecutor | BalanceExecutor
  | StopBalanceExecutor | ShowBalanceExecutor | ShowConfigsExecutor
  | SetConfigExecutor | GetConfigExecutor | SubmitJobExecutor
  | ShowHostsExecutor | ShowPartsExecutor | ShowCharsetExecutor
  | ShowCollationExecutor.

(** An [Executor *]: the place of the executor in the object pool. *)
Abbreviation ExecutorRef := nat (only parsing).

(** [Status]: only its being OK or not is looked at here. *)
Inductive Status : Type :=
| StatusOK
| StatusError (msg : string).

(** Modelled from the spec: [Iterator::Kind], the iteration descriptor of
    a result, is declared outside this file; the spec tells the default
    order from the specialised ones. *)
Module Iterator.
Inductive Kind : Set :=
| kDefault
| kSpecialized (tag : nat).
End Iterator.

(** Modelled from the spec: [time::Duration], the wall-clock timer of an
    executor, remembers when it was last restarted; every reading of the
    clock is an explicit argument [now]. *)
Record Duration : Set := { startedAt : Z }.

Definition Duration_reset (now : Z) : Duration := {| startedAt := now |}.

Definition elapsedInUSec (now : Z) (d : Duration) : Z := now - startedAt d.

(** The members of an executor. [class_] is the class it was constructed
    as (each class hands its own name to the base constructor as [name_]).
    The pointers [qctx_] and [ectx_] to the shared contexts are not
    members here: the context is an argument of every function that uses
    it. [thenBody_] and [elseBody_] belong to [SelectExecutor] and
    [loopBody_] to [LoopExecutor]; they are [None] (a null pointer) until
    the builder sets them. *)
Record Executor : Type := {
  id_ : Z;
  class_ : ExecutorClass;
  node_ : PlanNode.t;
  numRows_ : Z;
  execTime_ : Z;
  totalDuration_ : Duration;
  depends_ : list ExecutorRef;
  thenBody_ : option ExecutorRef;
  elseBody_ : option ExecutorRef;
  loopBody_ : option ExecutorRef }.

(** [cpp2::ProfilingStats] *)
Record ProfilingStats : Set := {
  total_duration_in_us : Z;
  rows : Z;
  exec_duration_in_us : Z }.

(** The task runner handed out by [Executor::runner()]. *)
Inductive FollyExecutor : Set :=
| InlineExecutor
| Runner (r : nat).

(** [ExecutionError], the exception that wraps a status. *)
Record ExecutionError : Type := { status_ : Status }.

(** [folly::Try<Status>] and [folly::Future<Status>]: the outcome held by a
    future ([None] while it is pending) and the executor its continuations
    are run on. *)
Inductive Try : Type :=
| TryValue (s : Status)
| TryException (e : ExecutionError).

Record Future : Type := {
  fut_result : option Try;
  fut_via : option FollyExecutor }.

Definition makeFuture (t : Try) : Future :=
  {| fut_result := Some t; fut_via := None |}.

Definition via (r : FollyExecutor) (f : Future) : Future :=
  {| fut_result := fut_result f; fut_via := Some r |}.

Definition isReady (f : Future) : bool := bool_decide (is_Some (fut_result f)).

(** Modelled from the spec: a continuation chained to an asynchronous
    result ([folly::Future::thenValue]) is invoked with the value once the
    result holds one; a wrapped error is passed on and the continuation is
    not invoked; while the result is pending so is the chain. *)
Definition thenValue (k : Status → Future) (f : Future) : Future :=
  match fut_result f with
  | Some (TryValue s) =>
      {| fut_result := fut_result (k s); fut_via := fut_via f |}
  | Some (TryException e) => f
  | None => {| fut_result := None; fut_via := fut_via f |}
  end.

(** Ways in which the builder stops the process. *)
Inductive Abort : Set :=
| FatalUnknownKind (k : PlanNode.Kind)
    (* LOG(FATAL) << "Unknown plan node kind " *)
| FatalUnsupportedDependencies (n : nat)
    (* LOG(FATAL) << "Unsupported plan node type which has dependencies: " *)
| NullNode (id : Z).
    (* DCHECK(node != nullptr): the control child of the node [id] that is
       handed to makeExecutor is a null pointer (which the function would
       dereference next) *)

(** The events of one build, in program order. The log is ghost state: the
    builder never reads it. The event of a call records the memo map as
    the call finds it. *)
Inductive Event : Type :=
| EvCall (id : Z) (memo : gmap Z ExecutorRef)
    (* makeExecutor(node, qctx, visited) entered; [memo] is the content
       of *visited at that moment *)
| EvConstruct (id : Z) (e : ExecutorRef)  (* makeExecutor(qctx, node) returned e *)
| EvInsert (id : Z) (e : ExecutorRef)     (* visited->insert({id, e}) *)
| EvReturn (id : Z) (e : ExecutorRef).    (* makeExecutor returned e *)

#[global] Instance Event_eq_dec : EqDecision Event.
Proof. solve_decision. Defined.

(** Sequencing of steps that may abort. *)
#[global] Instance Abort_ret : MRet (sum Abort) := λ A a, inr a.
#[global] Instance Abort_bind : MBind (sum Abort) := λ A B f m,
  match m with inl e => inl e | inr a => f a end.

Section Executor.

(** [Value] is opaque to this file; [kEmpty] is the value of a default
    constructed one. *)
Context {Value : Type} (kEmpty : Value).

(** [Result]: a value and the iterator kind used to traverse it. *)
Record Result : Type := { value : Value; iter : Iterator.Kind }.

(** [Result::size()], defined with the iterators, outside this file. *)
Variable Result_size : Result → Z.

(** The clock as read by the constructor of the executor that is put at
    a given place of the object pool. *)
Variable constructedAt : ExecutorRef → Z.

(** Modelled from the spec: [ResultBuilder], used as
    [ResultBuilder().value(v).iter(kind).finish()], collects the value
    and the iteration descriptor of the result it delivers. *)
Record ResultBuilder : Type := { core_value : Value; core_iter : Iterator.Kind }.

(** What a default constructed [ResultBuilder] holds is decided outside
    this file: [kEmpty] stands for its value, [builderIter] for its
    iteration descriptor, whatever that is. *)
Variable builderIter : Iterator.Kind.

Definition ResultBuilder_new : ResultBuilder :=
  {| core_value := kEmpty; core_iter := builderIter |}.
Definition ResultBuilder_value (v : Value) (b : ResultBuilder) : ResultBuilder :=
  {| core_value := v; core_iter := core_iter b |}.
Definition ResultBuilder_iter (k : Iterator.Kind) (b : ResultBuilder) : ResultBuilder :=
  {| core_value := core_value b; core_iter := k |}.
Definition ResultBuilder_finish (b : ResultBuilder) : Result :=
  {| value := core_value b; iter := core_iter b |}.

(** [QueryContext]: the object pool of executors, the execution context
    (a slot is [None] while it is declared but holds no result), the
    profiling data per plan node and the runner of the request context
    ([None] when there is none). *)
Record QueryContext : Type := {
  objPool : list Executor;
  ectx : gmap string (option Result);
  profiling : gmap Z (list ProfilingStats);
  rctx_runner : option FollyExecutor }.

(** *** Collaborators declared outside this file *)

(** Modelled from the spec: [ExecutionContext::exist], [initVar] and
    [setResult]. The execution context maps a variable name to a result,
    offers an existence check, declares an empty slot and overwrites the
    value of a slot. *)
Definition exist (name : string) (q : QueryContext) : bool :=
  bool_decide (is_Some (ectx q !! name)).

Definition initVar (name : string) (q : QueryContext) : QueryContext :=
  {| objPool := objPool q; ectx := <[name := None]> (ectx q);
     profiling := profiling q; rctx_runner := rctx_runner q |}.

Definition setResult (name : string) (r : Result) (q : QueryContext) : QueryContext :=
  {| objPool := objPool q; ectx := <[name := Some r]> (ectx q);
     profiling := profiling q; rctx_runner := rctx_runner q |}.

(** Modelled from the spec: [QueryContext::addProfilingData]. The
    profiling sink collects the statistics records per node identity. *)
Definition addProfilingData (id : Z) (stats : ProfilingStats) (q : QueryContext)
  : QueryContext :=
  {| objPool := objPool q; ectx := ectx q;
     profiling := <[id := default [] (profiling q !! id) ++ [stats]]> (profiling q);
     rctx_runner := rctx_runner q |}.

(** [ObjectPool::add]: the object is appended and its address returned. *)
Definition ObjectPool_add (e : Executor) (q : QueryContext) : ExecutorRef * QueryContext :=
  (length (objPool q),
   {| objPool := objPool q ++ [e]; ectx := ectx q;
      profiling := profiling q; rctx_runner := rctx_runner q |}).

(** A member function applied to the executor at [e]. *)
Definition onExecutor (e : ExecutorRef) (f : Executor → Executor) (q : QueryContext)
  : QueryContext :=
  {| objPool := alter f e (objPool q); ectx := ectx q;
     profiling := profiling q; rctx_runner := rctx_runner q |}.

(** Modelled from the spec: [Executor::dependsOn] records an ordering
    edge from [dep] to this executor and nothing else. *)
Definition dependsOn (dep : ExecutorRef) (this : Executor) : Executor :=
  {| id_ := id_ this; class_ := class_ this; node_ := node_ this;
     numRows_ := numRows_ this; execTime_ := execTime_ this;
     totalDuration_ := totalDuration_ this;
     depends_ := depends_ this ++ [dep];
     thenBody_ := thenBody_ this; elseBody_ := elseBody_ this;
     loopBody_ := loopBody_ this |}.

(** Modelled from the spec: [SelectExecutor::setThenBody],
    [setElseBody] and [LoopExecutor::setLoopBody] attach a built
    sub-graph to the control-flow executor. *)
Definition setThenBody (b : ExecutorRef) (this : Executor) : Executor :=
  {| id_ := id_ this; class_ := class_ this; node_ := node_ this;
     numRows_ := numRows_ this; execTime_ := execTime_ this;
     totalDuration_ := totalDuration_ this; depends_ := depends_ this;
     thenBody_ := Some b; elseBody_ := elseBody_ this;
     loopBody_ := loopBody_ this |}.

Definition setElseBody (b : ExecutorRef) (this : Executor) : Executor :=
  {| id_ := id_ this; class_ := class_ this; node_ := node_ this;
     numRows_ := numRows_ this; execTime_ := execTime_ this;
     totalDuration_ := totalDuration_ this; depends_ := depends_ this;
     thenBody_ := thenBody_ this; elseBody_ := Some b;
     loopBody_ := loopBody_ this |}.

Definition setLoopBody (b : ExecutorRef) (this : Executor) : Executor :=
  {| id_ := id_ this; class_ := class_ this; node_ := node_ this;
     numRows_ := numRows_ this; execTime_ := execTime_ this;
     totalDuration_ := totalDuration_ this; depends_ := depends_ this;
     thenBody_ := thenBody_ this; elseBody_ := elseBody_ this;
     loopBody_ := Some b |}.

(** *** [Executor.cpp] *)

(** [Executor::Executor(name, node, qctx)], as run by the constructor of
    the class [cls] at the instant [now]: the members are initialised (the
    counters at zero, no edge, no body) and the output variable of the
    node gets its slot in the execution context unless it has one. *)
Definition Executor_new (cls : ExecutorClass) (node : PlanNode.t) (now : Z)
    (q : QueryContext) : Executor * QueryContext :=
  ({| id_ := PlanNode.id node; class_ := cls; node_ := node;
      numRows_ := 0; execTime_ := 0;
      totalDuration_ := Duration_reset now;
      depends_ := []; thenBody_ := None; elseBody_ := None; loopBody_ := None |},
   if exist (PlanNode.outputVar node) q then q
   else initVar (PlanNode.outputVar node) q).

(** The [switch (node->kind())] of [makeExecutor(qctx, node)]: the class
    constructed for a kind; [kUnknown] breaks out of the switch. *)
Definition executorClass (k : PlanNode.Kind) : option ExecutorClass :=
  match k with
  | PlanNode.kPassThrough => Some PassThroughExecutor
  | PlanNode.kAggregate => Some AggregateExecutor
  | PlanNode.kSort => Some SortExecutor
  | PlanNode.kFilter => Some FilterExecutor
  | PlanNode.kGetEdges => Some GetEdgesExecutor
  | PlanNode.kGetVertices => Some GetVerticesExecutor
  | PlanNode.kGetNeighbors => Some GetNeighborsExecutor
  | PlanNode.kLimit => Some LimitExecutor
  | PlanNode.kProject => Some ProjectExecutor
  | PlanNode.kIndexScan => Some IndexScanExecutor
  | PlanNode.kStart => Some StartExecutor
  | PlanNode.kUnion => Some UnionExecutor
  | PlanNode.kIntersect => Some IntersectExecutor
  | PlanNode.kMinus => Some MinusExecutor
  | PlanNode.kLoop => Some LoopExecutor
  | PlanNode.kSelect => Some SelectExecutor
  | PlanNode.kDedup => Some DedupExecutor
  | PlanNode.kSwitchSpace => Some SwitchSpaceExecutor
  | PlanNode.kCreateSpace => Some CreateSpaceExecutor
  | PlanNode.kDescSpace => Some DescSpaceExecutor
  | PlanNode.kShowSpaces => Some ShowSpacesExecutor
  | PlanNode.kDropSpace => Some DropSpaceExecutor
  | PlanNode.kShowCreateSpace => Some ShowCreateSpaceExecutor
  | PlanNode.kCreateTag => Some CreateTagExecutor
  | PlanNode.kDescTag => Some DescTagExecutor
  | PlanNode.kAlterTag => Some AlterTagExecutor
  | PlanNode.kCreateEdge => Some CreateEdgeExecutor
  | PlanNode.kDescEdge => Some DescEdgeExecutor
  | PlanNode.kAlterEdge => Some AlterEdgeExecutor
  | PlanNode.kShowTags => Some ShowTagsExecutor
  | PlanNode.kShowEdges => Some ShowEdgesExecutor
  | PlanNode.kDropTag => Some DropTagExecutor
  | PlanNode.kDropEdge => Some DropEdgeExecutor
  | PlanNode.kShowCreateTag => Some ShowCreateTagExecutor
  | PlanNode.kShowCreateEdge => Some ShowCreateEdgeExecutor
  | PlanNode.kInsertVertices => Some InsertVerticesExecutor
  | PlanNode.kInsertEdges => Some InsertEdgesExecutor
  | PlanNode.kDataCollect => Some DataCollectExecutor
  | PlanNode.kCreateSnapshot => Some CreateSnapshotExecutor
  | PlanNode.kDropSnapshot => Some DropSnapshotExecutor
  | PlanNode.kShowSnapshots => Some ShowSnapshotsExecutor
  | PlanNode.kDataJoin => Some DataJoinExecutor
  | PlanNode.kDeleteVertices => Some DeleteVerticesExecutor
  | PlanNode.kDeleteEdges => Some DeleteEdgesExecutor
  | PlanNode.kUpdateVertex => Some UpdateVertexExecutor
  | PlanNode.kUpdateEdge => Some UpdateEdgeExecutor
  | PlanNode.kCreateUser => Some CreateUserExecutor
  | PlanNode.kDropUser => Some DropUserExecutor
  | PlanNode.kUpdateUser => Some UpdateUserExecutor
  | PlanNode.kGrantRole => Some GrantRoleExecutor
  | PlanNode.kRevokeRole => Some RevokeRoleExecutor
  | PlanNode.kChangePassword => Some ChangePasswordExecutor
  | PlanNode.kListUserRoles => Some ListUserRolesExecutor
  | PlanNode.kListUsers => Some ListUsersExecutor
  | PlanNode.kListRoles => Some ListRolesExecutor
  | PlanNode.kBalanceLeaders => Some BalanceLeadersExecutor
  | PlanNode.kBalance => Some BalanceExecutor
  | PlanNode.kStopBalance => Some StopBalanceExecutor
  | PlanNode.kShowBalance => Some ShowBalanceExecutor
  | PlanNode.kShowConfigs => Some ShowConfigsExecutor
  | PlanNode.kSetConfig => Some SetConfigExecutor
  | PlanNode.kGetConfig => Some GetConfigExecutor
  | PlanNode.kSubmitJob => Some SubmitJobExecutor
  | PlanNode.kShowHosts => Some ShowHostsExecutor
  | PlanNode.kShowParts => Some ShowPartsExecutor
  | PlanNode.kShowCharset => Some ShowCharsetExecutor
  | PlanNode.kShowCollation => Some ShowCollationExecutor
  | PlanNode.kUnknown => None
  end.

(** [Executor::makeExecutor(QueryContext *qctx, const PlanNode *node)] *)
Definition makeExecutorOfKind (q : QueryContext) (node : PlanNode.t)
  : Abort + (ExecutorRef * QueryContext) :=
  match executorClass (PlanNode.kind node) with
  | Some cls =>
      let '(exec, q) :=
        Executor_new cls node (constructedAt (length (objPool q))) q in
      inr (ObjectPool_add exec q)
  | None => inl (FatalUnknownKind (PlanNode.kind node))
  end.

(** The arguments [qctx] and [visited] of the recursive [makeExecutor],
    with the log of the build. *)
Record Build : Type := {
  qctx : QueryContext;
  visited : gmap Z ExecutorRef;
  events : list Event }.

Definition logged (ev : Event) (b : Build) : Build :=
  {| qctx := qctx b; visited := visited b; events := events b ++ [ev] |}.

Definition with_qctx (q : QueryContext) (b : Build) : Build :=
  {| qctx := q; visited := visited b; events := events b |}.

(** [exec->f(...)]: a member function is applied to the executor at
    [exec]. *)
Definition call (exec : ExecutorRef) (f : Executor → Executor) (b : Build) : Build :=
  with_qctx (onExecutor exec f (qctx b)) b.

(** [visited->insert({id, exec})]: [std::unordered_map::insert] leaves an
    existing entry as it is. *)
Definition visited_insert (id : Z) (exec : ExecutorRef) (b : Build) : Build :=
  {| qctx := qctx b;
     visited := match visited b !! id with
                | Some _ => visited b
                | None => <[id := exec]> (visited b)
                end;
     events := events b ++ [EvInsert id exec] |}.

(** [Executor::makeExecutor(const PlanNode *node, QueryContext *qctx,
    std::unordered_map<int64_t, Executor *> *visited)]. The recursion is
    on the plan below [node]; [node->dep(0)] and [node->dep(1)] are the
    entries of [dependencies()]. *)
Fixpoint makeExecutor (node : PlanNode.t) (b : Build) {struct node}
  : Abort + (ExecutorRef * Build) :=
  let b := logged (EvCall (PlanNode.id node) (visited b)) b in
  match visited b !! PlanNode.id node with
  | Some e => inr (e, logged (EvReturn (PlanNode.id node) e) b)
  | None =>
      '(exec, q) ← makeExecutorOfKind (qctx b) node;
      let b := logged (EvConstruct (PlanNode.id node) exec) (with_qctx q b) in
      b ← match PlanNode.dependencies node with
          | [] => inr b
          | [dep0] =>
              b ← (if decide (PlanNode.kind node = PlanNode.kSelect) then
                     match PlanNode.then_ node with
                     | Some then_ =>
                         '(thenBody, b) ← makeExecutor then_ b;
                         match PlanNode.otherwise_ node with
                         | Some otherwise =>
                             '(elseBody, b) ← makeExecutor otherwise b;
                             let b := call exec (setThenBody thenBody) b in
                             let b := call exec (setElseBody elseBody) b in
                             inr b
                         | None => inl (NullNode (PlanNode.id node))
                         end
                     | None => inl (NullNode (PlanNode.id node))
                     end
                   else if decide (PlanNode.kind node = PlanNode.kLoop) then
                     match PlanNode.body node with
                     | Some body =>
                         '(body, b) ← makeExecutor body b;
                         inr (call exec (setLoopBody body) b)
                     | None => inl (NullNode (PlanNode.id node))
                     end
                   else inr b);
              '(dep, b) ← makeExecutor dep0 b;
              inr (call exec (dependsOn dep) b)
          | [dep0; dep1] =>
              '(leftExec, b) ← makeExecutor dep0 b;
              '(rightExec, b) ← makeExecutor dep1 b;
              let b := call exec (dependsOn leftExec) b in
              let b := call exec (dependsOn rightExec) b in
              inr b
          | deps => inl (FatalUnsupportedDependencies (length deps))
          end;
      let b := visited_insert (PlanNode.id node) exec b in
      inr (exec, logged (EvReturn (PlanNode.id node) exec) b)
  end.

(** [Executor::create] *)
Definition create (node : PlanNode.t) (q : QueryContext)
  : Abort + (ExecutorRef * Build) :=
  makeExecutor node {| qctx := q; visited := ∅; events := [] |}.

(** [Executor::open] *)
Definition open (now : Z) (this : Executor) : Executor * Status :=
  ({| id_ := id_ this; class_ := class_ this; node_ := node_ this;
      numRows_ := 0; execTime_ := 0;
      totalDuration_ := Duration_reset now;
      depends_ := depends_ this;
      thenBody_ := thenBody_ this; elseBody_ := elseBody_ this;
      loopBody_ := loopBody_ this |},
   StatusOK).

(** [Executor::close] *)
Definition close (now : Z) (this : Executor) (q : QueryContext)
  : QueryContext * Status :=
  let stats :=
    {| total_duration_in_us := elapsedInUSec now (totalDuration_ this);
       rows := numRows_ this;
       exec_duration_in_us := execTime_ this |} in
  (addProfilingData (PlanNode.id (node_ this)) stats q, StatusOK).

(** [Executor::runner]: the runner of the request context, or the
    inline executor when there is none. *)
Definition runner (q : QueryContext) : FollyExecutor :=
  match rctx_runner q with
  | None => InlineExecutor
  | Some r => r
  end.

(** [Executor::start] *)
Definition start (status : Status) (this : Executor) (q : QueryContext) : Future :=
  via (runner q) (makeFuture (TryValue status)).

(** [Executor::error] *)
Definition error (status : Status) (this : Executor) (q : QueryContext) : Future :=
  via (runner q) (makeFuture (TryException {| status_ := status |})).

(** [Executor::finish(Result &&result)] *)
Definition finish (result : Result) (this : Executor) (q : QueryContext)
  : Executor * QueryContext * Status :=
  let this :=
    {| id_ := id_ this; class_ := class_ this; node_ := node_ this;
       numRows_ := Result_size result; execTime_ := execTime_ this;
       totalDuration_ := totalDuration_ this;
       depends_ := depends_ this;
       thenBody_ := thenBody_ this; elseBody_ := elseBody_ this;
       loopBody_ := loopBody_ this |} in
  (this, setResult (PlanNode.outputVar (node_ this)) result q, StatusOK).

(** [Executor::finish(Value &&value)] *)
Definition finish_value (v : Value) (this : Executor) (q : QueryContext)
  : Executor * QueryContext * Status :=
  finish
    (ResultBuilder_finish
       (ResultBuilder_iter Iterator.kDefault
          (ResultBuilder_value v ResultBuilder_new)))
    this q.

(** ** The plan as the builder walks it *)

(** The nodes that [makeExecutor] is called for from the call for
    [node], in the order of the calls (as far as the calls return). *)
Definition children (node : PlanNode.t) : list PlanNode.t :=
  match PlanNode.dependencies node with
  | [] => []
  | [dep0] =>
      if decide (PlanNode.kind node = PlanNode.kSelect) then
        match PlanNode.then_ node with
        | Some t =>
            match PlanNode.otherwise_ node with
            | Some o => [t; o; dep0]
            | None => [t]
            end
        | None => []
        end
      else if decide (PlanNode.kind node = PlanNode.kLoop) then
        match PlanNode.body node with
        | Some l => [l; dep0]
        | None => []
        end
      else [dep0]
  | [dep0; dep1] => [dep0; dep1]
  | _ => []
  end.

(** [reach n m]: the builder started at [n] comes to [m]. *)
Inductive reach : PlanNode.t → PlanNode.t → Prop :=
| reach_here n : reach n n
| reach_child n c m : c ∈ children n → reach c m → reach n m.

(** The number of node occurrences below a plan node. *)
Fixpoint size (node : PlanNode.t) : nat :=
  S (list_sum (map size (PlanNode.dependencies node))
     + from_option size 0%nat (PlanNode.then_ node)
     + from_option size 0%nat (PlanNode.otherwise_ node)
     + from_option size 0%nat (PlanNode.body node)).

(** The edge-linking [switch] of [makeExecutor], as a relation between
    the state after the construction of [exec] and the state before
    [visited->insert]. *)
Inductive linked (node : PlanNode.t) (exec : ExecutorRef) (b : Build) : Build → Prop :=
| linked_leaf :
    PlanNode.dependencies node = [] →
    linked node exec b b
| linked_unary d h b1 :
    PlanNode.dependencies node = [d] →
    PlanNode.kind node ≠ PlanNode.kSelect →
    PlanNode.kind node ≠ PlanNode.kLoop →
    makeExecutor d b = inr (h, b1) →
    linked node exec b (call exec (dependsOn h) b1)
| linked_select d t o ht b1 he b2 h b3 :
    PlanNode.dependencies node = [d] →
    PlanNode.kind node = PlanNode.kSelect →
    PlanNode.then_ node = Some t →
    PlanNode.otherwise_ node = Some o →
    makeExecutor t b = inr (ht, b1) →
    makeExecutor o b1 = inr (he, b2) →
    makeExecutor d (call exec (setElseBody he) (call exec (setThenBody ht) b2))
      = inr (h, b3) →
    linked node exec b (call exec (dependsOn h) b3)
| linked_loop d l hl b1 h b2 :
    PlanNode.dependencies node = [d] →
    PlanNode.kind node = PlanNode.kLoop →
    PlanNode.body node = Some l →
    makeExecutor l b = inr (hl, b1) →
    makeExecutor d (call exec (setLoopBody hl) b1) = inr (h, b2) →
    linked node exec b (call exec (dependsOn h) b2)
| linked_binary d0 d1 h0 b1 h1 b2 :
    PlanNode.dependencies node = [d0; d1] →
    makeExecutor d0 b = inr (h0, b1) →
    makeExecutor d1 b1 = inr (h1, b2) →
    linked node exec b
      (call exec (dependsOn h1) (call exec (dependsOn h0) b2)).

(** All node occurrences below a plan node, whether or not the builder
    comes to them. *)
Fixpoint subnodes (node : PlanNode.t) : list PlanNode.t :=
  node :: flat_map subnodes (PlanNode.dependencies node)
       ++ from_option subnodes [] (PlanNode.then_ node)
       ++ from_option subnodes [] (PlanNode.otherwise_ node)
       ++ from_option subnodes [] (PlanNode.body node).

(** The plan is a DAG whose nodes are told apart by [id()]: two
    occurrences with the same id are the same node, with everything
    below it. *)
Definition unique_ids (root : PlanNode.t) : Prop :=
  ∀ a b, reach root a → reach root b → PlanNode.id a = PlanNode.id b → a = b.

(** ** What a finished build looks like *)

(** The control children that the builder attaches for [node]. *)
Definition ctrl_then (node : PlanNode.t) : option PlanNode.t :=
  match PlanNode.dependencies node with
  | [_] =>
      if decide (PlanNode.kind node = PlanNode.kSelect)
      then PlanNode.then_ node else None
  | _ => None
  end.

Definition ctrl_else (node : PlanNode.t) : option PlanNode.t :=
  match PlanNode.dependencies node with
  | [_] =>
      if decide (PlanNode.kind node = PlanNode.kSelect)
      then PlanNode.otherwise_ node else None
  | _ => None
  end.

Definition ctrl_body (node : PlanNode.t) : option PlanNode.t :=
  match PlanNode.dependencies node with
  | [_] =>
      if decide (PlanNode.kind node = PlanNode.kSelect) then None
      else if decide (PlanNode.kind node = PlanNode.kLoop)
      then PlanNode.body node else None
  | _ => None
  end.

(** The pointer [h] of an executor is the memoized executor of the plan
    node [c] (both absent when there is no such child). *)
Definition link (v : gmap Z ExecutorRef) (c : option PlanNode.t)
    (h : option ExecutorRef) : Prop :=
  match c, h with
  | Some c, Some h => v !! PlanNode.id c = Some h
  | None, None => True
  | _, _ => False
  end.

(** The edges of [ex] are those of its plan node, through the memo map. *)
Definition wired (v : gmap Z ExecutorRef) (node : PlanNode.t) (ex : Executor) : Prop :=
  Forall2 (λ d h, v !! PlanNode.id d = Some h)
          (PlanNode.dependencies node) (depends_ ex)
  ∧ link v (ctrl_then node) (thenBody_ ex)
  ∧ link v (ctrl_else node) (elseBody_ ex)
  ∧ link v (ctrl_body node) (loopBody_ ex).

(** A node of the class [Select] or [Loop] with one dependency has the
    control children that the builder asks it for. *)
Definition has_controls (node : PlanNode.t) : Prop :=
  match PlanNode.dependencies node with
  | [_] =>
      (PlanNode.kind node = PlanNode.kSelect →
         is_Some (PlanNode.then_ node) ∧ is_Some (PlanNode.otherwise_ node))
      ∧ (PlanNode.kind node = PlanNode.kLoop → is_Some (PlanNode.body node))
  | _ => True
  end.

(** The executor at [e] is the finished executor of [node]. *)
Definition models (b : Build) (node : PlanNode.t) (e : ExecutorRef) : Prop :=
  ∃ ex, objPool (qctx b) !! e = Some ex
        ∧ id_ ex = PlanNode.id node
        ∧ node_ ex = node
        ∧ executorClass (PlanNode.kind node) = Some (class_ ex)
        ∧ (length (PlanNode.dependencies node) ≤ 2)%nat
        ∧ has_controls node
        ∧ wired (visited b) node ex
        ∧ PlanNode.outputVar node ∈ dom (ectx (qctx b)).

(** The invariant of the build of the plan below [root]: a memoized id
    is the id of a node of the plan whose executor is finished and whose
    children are memoized, and every call that has returned so far
    returned the memoized executor. *)
Definition build_ok (root : PlanNode.t) (b : Build) : Prop :=
  (∀ i e, visited b !! i = Some e →
     ∃ n, reach root n ∧ PlanNode.id n = i ∧ models b n e
          ∧ ∀ c, c ∈ children n → is_Some (visited b !! PlanNode.id c))
  ∧ (∀ i e, EvReturn i e ∈ events b → visited b !! i = Some e).

(** [b'] is a later state of the build than [b]: memo entries, executors
    and slots of [b] are still there, and what is memoized since points
    to executors allocated since. *)
Definition extends (b b' : Build) : Prop :=
  visited b ⊆ visited b'
  ∧ (length (objPool (qctx b)) ≤ length (objPool (qctx b')))%nat
  ∧ (∀ h, (h < length (objPool (qctx b)))%nat →
       objPool (qctx b') !! h = objPool (qctx b) !! h)
  ∧ dom (ectx (qctx b)) ⊆ dom (ectx (qctx b'))
  ∧ (∀ i e, visited b' !! i = Some e →
       visited b !! i = Some e ∨ (length (objPool (qctx b)) ≤ e)%nat).

(** The plan below [c] is memoized in [b]. *)
Definition covers (c : PlanNode.t) (b : Build) : Prop :=
  ∀ m, reach c m → is_Some (visited b !! PlanNode.id m).

(** The effect of a call [makeExecutor node b] that returned [e] in the
    state [b']. *)
Definition built (node : PlanNode.t) (b : Build) (e : ExecutorRef) (b' : Build) : Prop :=
  extends b b'
  ∧ visited b' !! PlanNode.id node = Some e
  ∧ covers node b'
  ∧ (∀ i, is_Some (visited b' !! i) →
       is_Some (visited b !! i) ∨ ∃ m, reach node m ∧ PlanNode.id m = i)
  ∧ (∀ h ex, (length (objPool (qctx b)) ≤ h)%nat →
       objPool (qctx b') !! h = Some ex →
       visited b' !! id_ ex = Some h ∧ visited b !! id_ ex = None).

(** The state [bm] in the middle of the call [makeExecutor node b], after
    the executor [exec] of [node] has been constructed and before it is
    memoized. *)
Definition pending (root node : PlanNode.t) (b : Build) (exec : ExecutorRef)
    (bm : Build) : Prop :=
  build_ok root bm
  ∧ extends b bm
  ∧ exec = length (objPool (qctx b))
  ∧ (∀ i, visited bm !! i ≠ Some exec)
  ∧ (∃ ex, objPool (qctx bm) !! exec = Some ex
           ∧ id_ ex = PlanNode.id node ∧ node_ ex = node
           ∧ executorClass (PlanNode.kind node) = Some (class_ ex))
  ∧ (∀ i, is_Some (visited bm !! i) →
       is_Some (visited b !! i)
       ∨ ∃ c m, c ∈ children node ∧ reach c m ∧ PlanNode.id m = i)
  ∧ (∀ h ex, (exec < h)%nat → objPool (qctx bm) !! h = Some ex →
       visited bm !! id_ ex = Some h ∧ visited b !! id_ ex = None)
  ∧ PlanNode.outputVar node ∈ dom (ectx (qctx bm)).

(** Some occurrence of [x] in the log [l] has an occurrence of [y]
    after it. *)
Fixpoint precedes (x y : Event) (l : list Event) : bool :=
  match l with
  | [] => false
  | z :: l => (bool_decide (z = x) && bool_decide (y ∈ l)) || precedes x y l
  end.

(** The log of a call [makeExecutor node b] that returned [e] in the
    state [b']: the call is entered, returns [e] at the end, and
    constructs and inserts only executors that it has allocated itself.
    The memo map grows, by ids of nodes that the call comes to only and
    by executors that the call has allocated only; every call made
    meanwhile finds a memo map between the first and the last one, and
    returns an executor of the first memo map or one allocated since. *)
Definition call_logged (node : PlanNode.t) (b : Build) (e : ExecutorRef)
    (b' : Build) : Prop :=
  (length (objPool (qctx b)) ≤ length (objPool (qctx b')))%nat
  ∧ visited b ⊆ visited b'
  ∧ (∀ k, is_Some (visited b' !! k) →
       is_Some (visited b !! k) ∨ ∃ m, reach node m ∧ PlanNode.id m = k)
  ∧ (∀ k h, visited b' !! k = Some h →
       visited b !! k = Some h ∨ (length (objPool (qctx b)) ≤ h)%nat)
  ∧ ∃ mid, events b'
           = events b ++ EvCall (PlanNode.id node) (visited b) :: mid
               ++ [EvReturn (PlanNode.id node) e]
           ∧ (∀ i h, EvInsert i h ∈ mid ∨ EvConstruct i h ∈ mid →
                (length (objPool (qctx b)) ≤ h)%nat)
           ∧ (∀ i v, EvCall i v ∈ mid → visited b ⊆ v ∧ v ⊆ visited b')
           ∧ ∀ i h, EvReturn i h ∈ mid ++ [EvReturn (PlanNode.id node) e] →
               (∃ k, visited b !! k = Some h)
               ∨ (length (objPool (qctx b)) ≤ h)%nat.

(** The stretch [tr] of the log between the states [b] and [b'], in
    which the builder has made the calls for the nodes [cs]: what
    [call_logged] says of one call, for calls one after the other. *)
Definition segment (cs : list PlanNode.t) (b b' : Build) (tr : list Event)
  : Prop :=
  (length (objPool (qctx b)) ≤ length (objPool (qctx b')))%nat
  ∧ visited b ⊆ visited b'
  ∧ (∀ k, is_Some (visited b' !! k) →
       is_Some (visited b !! k)
       ∨ ∃ c m, c ∈ cs ∧ reach c m ∧ PlanNode.id m = k)
  ∧ (∀ k h, visited b' !! k = Some h →
       visited b !! k = Some h ∨ (length (objPool (qctx b)) ≤ h)%nat)
  ∧ events b' = events b ++ tr
  ∧ (∀ i h, EvInsert i h ∈ tr ∨ EvConstruct i h ∈ tr →
       (length (objPool (qctx b)) ≤ h)%nat)
  ∧ (∀ i v, EvCall i v ∈ tr → visited b ⊆ v ∧ v ⊆ visited b')
  ∧ (∀ i h, EvReturn i h ∈ tr →
       (∃ k, visited b !! k = Some h)
       ∨ (length (objPool (qctx b)) ≤ h)%nat)
  ∧ ∀ c, c ∈ cs → ∃ h v, EvCall (PlanNode.id c) v ∈ tr
                         ∧ EvReturn (PlanNode.id c) h ∈ tr.

(** The executors allocated since the pool had [p0] entries have the
    slot of their output variable. *)
Definition slots_from (p0 : nat) (b : Build) : Prop :=
  ∀ h ex, (p0 ≤ h)%nat → objPool (qctx b) !! h = Some ex →
          exist (PlanNode.outputVar (node_ ex)) (qctx b) = true.

(** A node that the kind dispatch and the dependency switch accept. *)
Definition supported (node : PlanNode.t) : Prop :=
  executorClass (PlanNode.kind node) ≠ None
  ∧ (length (PlanNode.dependencies node) ≤ 2)%nat.

(** The abort is one of the two [LOG(FATAL)] of the builder. *)
Definition is_fatal (a : Abort) : bool :=
  match a with
  | FatalUnknownKind _ | FatalUnsupportedDependencies _ => true
  | NullNode _ => false
  end.

(** ** Example plans *)

Definition leaf (id : Z) (k : PlanNode.Kind) (var : string) : PlanNode.t :=
  PlanNode.Node id k [] var None None None.

Definition unary (id : Z) (k : PlanNode.Kind) (var : string) (d : PlanNode.t)
  : PlanNode.t :=
  PlanNode.Node id k [d] var None None None.

Definition binary (id : Z) (k : PlanNode.Kind) (var : string) (l r : PlanNode.t)
  : PlanNode.t :=
  PlanNode.Node id k [l; r] var None None None.

(** A query context in which nothing has been built or run yet. *)
Definition freshContext : QueryContext :=
  {| objPool := []; ectx := ∅; profiling := ∅; rctx_runner := None |}.

Definition shared : PlanNode.t := leaf 1 PlanNode.kStart "v1".
Definition chain : PlanNode.t := unary 2 PlanNode.kProject "v2" shared.

(** A diamond: [shared] is below both inputs of the union. *)
Definition diamond : PlanNode.t :=
  binary 4 PlanNode.kUnion "v4"
    (unary 2 PlanNode.kFilter "v2" shared)
    (unary 3 PlanNode.kProject "v3" shared).

(** A branch on [shared] with two alternatives, and a loop over [chain]. *)
Definition branch : PlanNode.t :=
  PlanNode.Node 7 PlanNode.kSelect [shared] "v7"
    (Some (leaf 5 PlanNode.kStart "v5")) (Some (leaf 6 PlanNode.kStart "v6")) None.

Definition loop : PlanNode.t :=
  PlanNode.Node 8 PlanNode.kLoop [leaf 5 PlanNode.kStart "v5"] "v8"
    None None (Some chain).

(** A node declared with three dependencies. *)
Definition ternary : PlanNode.t :=
  PlanNode.Node 9 PlanNode.kUnion
    [shared; leaf 5 PlanNode.kStart "v5"; leaf 6 PlanNode.kStart "v6"]
    "v9" None None None.

(** ** What every call keeps, whatever the ids of the plan *)

(** [d] is one of the executors that [ex] points to: a predecessor or
    a body. *)
Definition points_to (ex : Executor) (d : ExecutorRef) : Prop :=
  d ∈ depends_ ex ∨ thenBody_ ex = Some d ∨ elseBody_ ex = Some d
  ∨ loopBody_ ex = Some d.

(** From [b] to [b'] the build has kept: the memo entries; the
    executors at the places below [p0] as they are, and the plan node
    and the id of every executor; the profiling data and the runner; the slots, but
    for empty slots that it has added for the output variable of an
    executor allocated since [b]. *)
Definition keeps (p0 : nat) (b b' : Build) : Prop :=
  visited b ⊆ visited b'
  ∧ (length (objPool (qctx b)) ≤ length (objPool (qctx b')))%nat
  ∧ (∀ h, (h < p0)%nat → objPool (qctx b') !! h = objPool (qctx b) !! h)
  ∧ (∀ h ex, objPool (qctx b) !! h = Some ex →
       ∃ ex', objPool (qctx b') !! h = Some ex'
              ∧ node_ ex' = node_ ex ∧ id_ ex' = id_ ex)
  ∧ profiling (qctx b') = profiling (qctx b)
  ∧ rctx_runner (qctx b') = rctx_runner (qctx b)
  ∧ (∀ name,
       ectx (qctx b') !! name = ectx (qctx b) !! name
       ∨ (ectx (qctx b) !! name = None
          ∧ ectx (qctx b') !! name = Some None
          ∧ ∃ h ex, (length (objPool (qctx b)) ≤ h)%nat
                    ∧ objPool (qctx b') !! h = Some ex
                    ∧ PlanNode.outputVar (node_ ex) = name)).

(** No pointer of the build dangles: a memo entry for an id points to
    an executor with that id, and an executor allocated since the pool
    had [p0] entries has the id of its plan node, the class of the kind
    of its plan node, and points to executors of the pool only. *)
Definition refs_ok (p0 : nat) (b : Build) : Prop :=
  (∀ i h, visited b !! i = Some h →
     ∃ ex, objPool (qctx b) !! h = Some ex ∧ id_ ex = i)
  ∧ (∀ h ex, (p0 ≤ h)%nat → objPool (qctx b) !! h = Some ex →
       id_ ex = PlanNode.id (node_ ex)
       ∧ executorClass (PlanNode.kind (node_ ex)) = Some (class_ ex)
       ∧ ∀ d, points_to ex d → (d < length (objPool (qctx b)))%nat).

(** A plan in which a node and its dependency have the same id. *)
Definition clash : PlanNode.t :=
  unary 1 PlanNode.kProject "v2" (leaf 1 PlanNode.kStart "v1").

(** ** Proof steps *)

(** [c ∈ children n], once the list of the children of [n] is known. *)
Ltac child_of Hch := rewrite Hch; repeat constructor.

(** ** The life cycle of one executor *)

(** C6. [open] succeeds from any state; it zeroes the row counter and the
    execution time and restarts the timer at the present instant, and
    touches nothing else. Opening an executor that has been opened before
    gives the state that opening it for the first time would give. *)
Theorem open_resets_counters (now later : Z) (this : Executor) :
  (open now this).2 = StatusOK
  ∧ numRows_ (open now this).1 = 0
  ∧ execTime_ (open now this).1 = 0
  ∧ totalDuration_ (open now this).1 = Duration_reset now
  ∧ elapsedInUSec now (totalDuration_ (open now this).1) = 0
  ∧ (id_ (open now this).1 = id_ this
     ∧ node_ (open now this).1 = node_ this
     ∧ depends_ (open now this).1 = depends_ this
     ∧ thenBody_ (open now this).1 = thenBody_ this
     ∧ elseBody_ (open now this).1 = elseBody_ this
     ∧ loopBody_ (open now this).1 = loopBody_ this)
  ∧ open later (open now this).1 = open later this
  ∧ open now (open now this).1 = open now this.
Proof.
  unfold open, elapsedInUSec, Duration_reset; simpl.
  repeat split; try reflexivity. apply Z.sub_diag.
Qed.

(** C5. [finish result] returns OK, sets the row counter to the size of
    [result] and stores [result] in the slot of the output variable of
    the executor's node, whatever the slot held; no other slot and no
    other member changes. *)
Theorem finish_publishes_result (result : Result) (this : Executor)
    (q : QueryContext) :
  let '(this', q', status) := finish result this q in
  status = StatusOK
  ∧ numRows_ this' = Result_size result
  ∧ ectx q' !! PlanNode.outputVar (node_ this) = Some (Some result)
  ∧ (∀ name, name ≠ PlanNode.outputVar (node_ this) →
       ectx q' !! name = ectx q !! name)
  ∧ (node_ this' = node_ this ∧ id_ this' = id_ this
     ∧ execTime_ this' = execTime_ this
     ∧ totalDuration_ this' = totalDuration_ this)
  ∧ (objPool q' = objPool q ∧ profiling q' = profiling q).
Proof.
  unfold finish, setResult; simpl.
  split_and!; try reflexivity.
  - apply lookup_insert_eq.
  - intros name Hne. by apply lookup_insert_ne.
Qed.

(** C4. When [finish result] is followed by [close], [close] returns OK
    and appends, under the id of the executor's node, a statistics record
    whose row count is the size of [result], with the time elapsed since
    the timer was restarted and the execution time of the executor; the
    records of other nodes stay as they are. *)
Theorem close_reports_finished_rows (now : Z) (result : Result)
    (this : Executor) (q : QueryContext) :
  let '(this', q', _) := finish result this q in
  let '(q'', status) := close now this' q' in
  let stats :=
    {| total_duration_in_us := elapsedInUSec now (totalDuration_ this);
       rows := Result_size result;
       exec_duration_in_us := execTime_ this |} in
  status = StatusOK
  ∧ profiling q'' !! PlanNode.id (node_ this)
    = Some (default [] (profiling q !! PlanNode.id (node_ this)) ++ [stats])
  ∧ (∀ i, i ≠ PlanNode.id (node_ this) → profiling q'' !! i = profiling q !! i)
  ∧ ectx q'' = ectx q'.
Proof.
  unfold finish, close, addProfilingData, setResult; simpl.
  split_and!; try reflexivity.
  - apply lookup_insert_eq.
  - intros i Hne. by apply lookup_insert_ne.
Qed.

(** C9. [error status] is a future that is ready, holds the exception
    [ExecutionError] made of [status] (and so no status value) and is
    bound to the runner of the request context, or to the inline
    executor when the request context has none; [start status] is a
    future that is ready, holds [status] itself and is bound to the
    same runner. Neither depends on the executor it is called on. A
    continuation chained to the future of [error], such as the call of
    [execute], is not invoked: the chain is the future of [error],
    whatever the continuation; chained to the future of [start], the
    continuation is invoked with [status]. *)
Theorem error_and_start_are_ready (status : Status) (this : Executor)
    (q : QueryContext) :
  (isReady (error status this q) = true
   ∧ fut_result (error status this q)
     = Some (TryException {| status_ := status |})
   ∧ (∀ s, fut_result (error status this q) ≠ Some (TryValue s))
   ∧ fut_via (error status this q) = Some (runner q))
  ∧ (isReady (start status this q) = true
     ∧ fut_result (start status this q) = Some (TryValue status)
     ∧ fut_via (start status this q) = Some (runner q))
  ∧ (∀ other, error status other q = error status this q
              ∧ start status other q = start status this q)
  ∧ (fut_via (error status this q)
     = Some (match rctx_runner q with
             | Some r => r
             | None => InlineExecutor
             end)
     ∧ fut_via (start status this q)
       = Some (match rctx_runner q with
               | Some r => r
               | None => InlineExecutor
               end))
  ∧ (∀ execute : Status → Future,
       thenValue execute (error status this q) = error status this q
       ∧ thenValue execute (start status this q)
         = {| fut_result := fut_result (execute status);
              fut_via := fut_via (start status this q) |}).
Proof.
  unfold error, start, via, makeFuture, isReady, runner, thenValue; simpl.
  split_and!; try reflexivity; try done.
Qed.

(** C10. [finish] of a bare value is [finish] of the result made of that
    value and the default iterator kind, and that result is what the slot
    of the output variable holds afterwards, whatever iteration
    descriptor a default constructed builder holds: the builder is given
    the value and the default kind before it delivers the result. *)
Theorem finish_value_uses_default_iterator (v : Value) (this : Executor)
    (q : QueryContext) :
  finish_value v this q
  = finish {| value := v; iter := Iterator.kDefault |} this q
  ∧ ectx (finish_value v this q).1.2 !! PlanNode.outputVar (node_ this)
    = Some (Some {| value := v; iter := Iterator.kDefault |})
  ∧ numRows_ (finish_value v this q).1.1
    = Result_size {| value := v; iter := Iterator.kDefault |}
  ∧ (finish_value v this q).2 = StatusOK
  ∧ (∀ rb : ResultBuilder,
       ResultBuilder_finish
         (ResultBuilder_iter Iterator.kDefault (ResultBuilder_value v rb))
       = {| value := v; iter := Iterator.kDefault |}).
Proof.
  unfold finish_value, finish, setResult, ResultBuilder_finish,
    ResultBuilder_iter, ResultBuilder_value, ResultBuilder_new; simpl.
  split_and!; try reflexivity. apply lookup_insert_eq.
Qed.

(** ** One step of [makeExecutor] *)

Lemma bind_inr {A B} (m : Abort + A) (f : A → Abort + B) (r : B) :
  m ≫= f = inr r → ∃ a, m = inr a ∧ f a = inr r.
Proof. destruct m as [x|a]; simpl; [discriminate | eauto]. Qed.

Lemma makeExecutor_hit node b e :
  visited b !! PlanNode.id node = Some e →
  makeExecutor node b
  = inr (e, logged (EvReturn (PlanNode.id node) e)
              (logged (EvCall (PlanNode.id node) (visited b)) b)).
Proof. intros H. destruct node; simpl in *. by rewrite H. Qed.

Lemma makeExecutor_miss node b e b' :
  visited b !! PlanNode.id node = None →
  makeExecutor node b = inr (e, b') →
  ∃ q bl,
    makeExecutorOfKind (qctx b) node = inr (e, q)
    ∧ linked node e
        (logged (EvConstruct (PlanNode.id node) e)
           (with_qctx q (logged (EvCall (PlanNode.id node) (visited b)) b))) bl
    ∧ b' = logged (EvReturn (PlanNode.id node) e)
             (visited_insert (PlanNode.id node) e bl).
Proof.
  intros Hmiss Hrun.
  destruct node as [i k ds ov th ot bo]; simpl in *.
  rewrite Hmiss in Hrun.
  apply bind_inr in Hrun as ([exec q] & Hk & Hrun).
  apply bind_inr in Hrun as (bl & Hlink & Hret).
  injection Hret as <- <-.
  exists q, bl. split; [exact Hk|]. split; [|reflexivity].
  destruct ds as [|d0 [|d1 [|d2 ds]]].
  - injection Hlink as <-. by constructor.
  - apply bind_inr in Hlink as (b2 & Hctl & Hdep).
    apply bind_inr in Hdep as ([h b3] & Hdep & Hlast).
    injection Hlast as <-.
    destruct (decide (k = PlanNode.kSelect)) as [Hsel|Hsel].
    + destruct th as [t|]; [|discriminate].
      apply bind_inr in Hctl as ([ht b1] & Ht & Hctl).
      destruct ot as [o|]; [|discriminate].
      apply bind_inr in Hctl as ([he b1'] & Ho & Hctl).
      injection Hctl as <-.
      eapply linked_select; eauto.
    + destruct (decide (k = PlanNode.kLoop)) as [Hloop|Hloop].
      * destruct bo as [l|]; [|discriminate].
        apply bind_inr in Hctl as ([hl b1] & Hl & Hctl).
        injection Hctl as <-.
        eapply linked_loop; eauto.
      * injection Hctl as <-. eapply linked_unary; eauto.
  - apply bind_inr in Hlink as ([h0 b1] & H0 & Hlink).
    apply bind_inr in Hlink as ([h1 b2] & H1 & Hlink).
    injection Hlink as <-.
    eapply linked_binary; eauto.
  - discriminate.
Qed.

(** ** The plan: children, reachability and size *)

Lemma children_size c n : c ∈ children n → (size c < size n)%nat.
Proof.
  destruct n as [i k ds ov th ot bo]; unfold children; simpl.
  destruct ds as [|d0 [|d1 [|d2 ds]]]; simpl.
  - by intros ?%elem_of_nil.
  - destruct (decide (k = PlanNode.kSelect)).
    + destruct th as [t|], ot as [o|]; simpl;
        try (by intros ?%elem_of_nil).
      * rewrite !elem_of_cons, elem_of_nil. intros [->|[->|[->|[]]]]; lia.
      * rewrite !elem_of_cons, elem_of_nil. intros [->|[]]; lia.
    + destruct (decide (k = PlanNode.kLoop)).
      * destruct bo as [l|]; simpl; try (by intros ?%elem_of_nil).
        rewrite !elem_of_cons, elem_of_nil. intros [->|[->|[]]]; lia.
      * rewrite !elem_of_cons, elem_of_nil. intros [->|[]]; lia.
  - rewrite !elem_of_cons, elem_of_nil. intros [->|[->|[]]]; lia.
  - by intros ?%elem_of_nil.
Qed.

Lemma reach_size n m : reach n m → (size m ≤ size n)%nat.
Proof.
  induction 1 as [n|n c m Hc _ IH]; [done|].
  apply children_size in Hc. lia.
Qed.

Lemma reach_trans n m k : reach n m → reach m k → reach n k.
Proof.
  induction 1 as [n|n c m Hc _ IH]; [done|].
  intros Hk. eapply reach_child; eauto.
Qed.

Lemma reach_step n c : c ∈ children n → reach n c.
Proof. intros Hc. eapply reach_child; [exact Hc | constructor]. Qed.

Lemma reach_inv n m :
  reach n m → m = n ∨ ∃ c, c ∈ children n ∧ reach c m.
Proof. destruct 1; eauto. Qed.

(** Induction on the plan along the calls of the builder. *)
Lemma plan_ind (P : PlanNode.t → Prop) :
  (∀ n, (∀ c, c ∈ children n → P c) → P n) → ∀ n, P n.
Proof.
  intros step n. remember (size n) as k eqn:Hk. revert n Hk.
  induction k as [k IH] using lt_wf_ind. intros n ->.
  apply step. intros c Hc. eapply IH; [|reflexivity].
  by apply children_size.
Qed.

(** In a plan with unique ids no node below a child of [n] has the id
    of [n]. *)
Lemma children_fresh_id root n c m :
  unique_ids root → reach root n → c ∈ children n → reach c m →
  PlanNode.id m ≠ PlanNode.id n.
Proof.
  intros U Hn Hc Hm Heq.
  assert (m = n) as ->.
  { apply U; [|done|done]. eapply reach_trans; [exact Hn|].
    eapply reach_child; eauto. }
  apply reach_size in Hm. apply children_size in Hc. lia.
Qed.

Lemma children_leaf n : PlanNode.dependencies n = [] → children n = [].
Proof. unfold children. by intros ->. Qed.

Lemma children_unary n d :
  PlanNode.dependencies n = [d] →
  PlanNode.kind n ≠ PlanNode.kSelect → PlanNode.kind n ≠ PlanNode.kLoop →
  children n = [d].
Proof.
  unfold children. intros -> ? ?.
  by rewrite !decide_False by done.
Qed.

Lemma children_select n d t o :
  PlanNode.dependencies n = [d] → PlanNode.kind n = PlanNode.kSelect →
  PlanNode.then_ n = Some t → PlanNode.otherwise_ n = Some o →
  children n = [t; o; d].
Proof.
  unfold children. intros -> Hk -> ->. by rewrite decide_True by done.
Qed.

Lemma children_loop n d l :
  PlanNode.dependencies n = [d] → PlanNode.kind n = PlanNode.kLoop →
  PlanNode.body n = Some l →
  children n = [l; d].
Proof.
  unfold children. intros -> Hk ->.
  rewrite decide_False by (rewrite Hk; discriminate).
  by rewrite decide_True by done.
Qed.

Lemma children_binary n d0 d1 :
  PlanNode.dependencies n = [d0; d1] → children n = [d0; d1].
Proof. unfold children. by intros ->. Qed.

(** ** States of the build *)

Lemma extends_refl b : extends b b.
Proof. unfold extends. split_and!; auto. Qed.

Lemma extends_trans b1 b2 b3 : extends b1 b2 → extends b2 b3 → extends b1 b3.
Proof.
  intros (Hv1 & Hl1 & Hp1 & He1 & Hn1) (Hv2 & Hl2 & Hp2 & He2 & Hn2).
  unfold extends. split_and!.
  - by etrans.
  - lia.
  - intros h Hh. rewrite Hp2 by lia. by apply Hp1.
  - by etrans.
  - intros i e Hi. destruct (Hn2 i e Hi) as [Hi'|Hi'].
    + apply Hn1 in Hi'. done.
    + right. lia.
Qed.

Lemma link_mono v v' c h : v ⊆ v' → link v c h → link v' c h.
Proof.
  intros Hsub. destruct c, h; simpl; try done.
  intros Hc. by eapply lookup_weaken.
Qed.

Lemma wired_mono v v' n ex : v ⊆ v' → wired v n ex → wired v' n ex.
Proof.
  intros Hsub (Hd & Ht & He & Hl). unfold wired. split_and!.
  - eapply Forall2_impl; [exact Hd|]. simpl. intros d h Hdh.
    by eapply lookup_weaken.
  - by eapply link_mono.
  - by eapply link_mono.
  - by eapply link_mono.
Qed.

Lemma is_Some_weaken (v v' : gmap Z ExecutorRef) i :
  v ⊆ v' → is_Some (v !! i) → is_Some (v' !! i).
Proof. intros Hsub [e He]. exists e. by eapply lookup_weaken. Qed.

(** The finished executors of one state are finished executors of every
    later state in which they and the memo entries are kept. *)
Lemma models_later b b' n e :
  visited b ⊆ visited b' →
  objPool (qctx b') !! e = objPool (qctx b) !! e →
  dom (ectx (qctx b)) ⊆ dom (ectx (qctx b')) →
  models b n e → models b' n e.
Proof.
  intros Hv Hp He (ex & Hex & Hid & Hnode & Hcls & Hlen & Hctl & Hw & Hslot).
  exists ex. split_and!; try done.
  - by rewrite Hp.
  - by eapply wired_mono.
  - by apply He.
Qed.

Lemma models_valid b n e : models b n e → (e < length (objPool (qctx b)))%nat.
Proof. intros (ex & Hex & _). by eapply lookup_lt_Some. Qed.

Lemma build_ok_valid root b i e :
  build_ok root b → visited b !! i = Some e →
  (e < length (objPool (qctx b)))%nat.
Proof.
  intros [Hm _] Hi. destruct (Hm i e Hi) as (n & _ & _ & Hmod & _).
  by eapply models_valid.
Qed.

(** A memoized node has everything below it memoized. *)
Lemma build_ok_covers root b n :
  unique_ids root → build_ok root b → reach root n →
  is_Some (visited b !! PlanNode.id n) → covers n b.
Proof.
  intros U [Hm _] Hn Hin m Hm'. revert Hn Hin.
  induction Hm' as [n|n c m Hc _ IH]; intros Hn Hin; [done|].
  apply IH.
  - eapply reach_trans; [exact Hn|]. by apply reach_step.
  - destruct Hin as [e He].
    destruct (Hm _ _ He) as (n' & Hn' & Hid & _ & Hcl).
    assert (n' = n) as -> by (by apply U).
    by apply Hcl.
Qed.

Lemma makeExecutorOfKind_inr q n e q' :
  makeExecutorOfKind q n = inr (e, q') →
  ∃ cls,
    executorClass (PlanNode.kind n) = Some cls
    ∧ e = length (objPool q)
    ∧ objPool q'
      = objPool q
        ++ [(Executor_new cls n (constructedAt (length (objPool q))) q).1]
    ∧ dom (ectx q) ⊆ dom (ectx q')
    ∧ PlanNode.outputVar n ∈ dom (ectx q')
    ∧ ectx q ⊆ ectx q'.
Proof.
  unfold makeExecutorOfKind.
  destruct (executorClass (PlanNode.kind n)) as [cls|]; [|discriminate].
  unfold Executor_new, ObjectPool_add, exist; simpl.
  case_bool_decide as Hex; simpl; intros [= <- <-]; exists cls; simpl;
    (split_and!; [done|done|done|..]).
  - done.
  - by apply elem_of_dom.
  - done.
  - rewrite dom_insert_L. set_solver.
  - rewrite dom_insert_L. set_solver.
  - apply insert_subseteq. apply eq_None_not_Some. exact Hex.
Qed.

(** ** The state in the middle of a call *)

(** After the construction of the executor of [n]. *)
Lemma pending_init root n b e q :
  build_ok root b →
  makeExecutorOfKind (qctx b) n = inr (e, q) →
  let b1 := logged (EvConstruct (PlanNode.id n) e)
              (with_qctx q (logged (EvCall (PlanNode.id n) (visited b)) b)) in
  pending root n b e b1
  ∧ ∃ ex, objPool (qctx b1) !! e = Some ex
          ∧ depends_ ex = [] ∧ thenBody_ ex = None
          ∧ elseBody_ ex = None ∧ loopBody_ ex = None.
Proof.
  intros Hok Hk.
  apply makeExecutorOfKind_inr in Hk
    as (cls & Hcls & -> & Hpool & Hdom & Hvar & _).
  simpl. split.
  - unfold pending; simpl. split_and!.
    + destruct Hok as [Hm Hr]. split; simpl.
      * intros i e Hi. destruct (Hm i e Hi) as (m & Hm1 & Hm2 & Hmod & Hcl).
        exists m. split_and!; try done.
        eapply models_later; [| |exact Hdom|exact Hmod]; simpl; [done|].
        rewrite Hpool. apply lookup_app_l. by eapply models_valid.
      * intros i e. rewrite !elem_of_app, !list_elem_of_singleton.
        intros [[Hi|[=]]|[=]]. by apply Hr.
    + unfold extends; simpl. split_and!; try done.
      * rewrite Hpool, length_app; simpl. lia.
      * intros h Hh. rewrite Hpool. by apply lookup_app_l.
      * auto.
    + done.
    + intros i Hi. eapply build_ok_valid in Hi; [|exact Hok]. lia.
    + rewrite Hpool. eexists. split; [apply list_lookup_middle; done|].
      simpl. done.
    + auto.
    + intros h ex Hh Hex. apply lookup_lt_Some in Hex.
      rewrite Hpool, length_app in Hex. simpl in Hex. lia.
    + done.
  - rewrite Hpool. eexists. split; [apply list_lookup_middle; done|].
    simpl. done.
Qed.

(** After the return of the call for a child [c] of [n]. *)
Lemma pending_child root n b exec bm c h bm' :
  pending root n b exec bm → c ∈ children n →
  build_ok root bm' → built c bm h bm' →
  pending root n b exec bm'
  ∧ extends bm bm'
  ∧ objPool (qctx bm') !! exec = objPool (qctx bm) !! exec
  ∧ visited bm' !! PlanNode.id c = Some h
  ∧ covers c bm'.
Proof.
  intros (Hok & Hext & -> & Hfresh & (ex & Hex & Hbase) & Hdom & Hnew & Hvar)
         Hc Hok' (Hext' & Hret & Hcov & Hdom' & Hnew').
  assert (length (objPool (qctx b)) < length (objPool (qctx bm)))%nat as Hlt
    by (by eapply lookup_lt_Some).
  pose proof Hext' as (Hv' & Hl' & Hp' & He' & Hn').
  pose proof Hext as (Hv & Hl & Hp & He & Hn).
  split_and!; try done; [|by apply Hp'].
  unfold pending. split_and!; try done.
  - by eapply extends_trans.
  - intros i Hi. destruct (Hn' i _ Hi) as [Hi'|Hi'].
    + by apply Hfresh in Hi'.
    + lia.
  - exists ex. by rewrite Hp'.
  - intros i Hi. destruct (Hdom' i Hi) as [Hi'|(m & Hm & Hid)].
    + by apply Hdom.
    + right. by exists c, m.
  - intros k exk Hk Hexk.
    destruct (decide (k < length (objPool (qctx bm)))%nat) as [Hold|Hnew''].
    + rewrite Hp' in Hexk by done.
      destruct (Hnew k exk Hk Hexk) as [H1 H2]. split; [|done].
      by eapply lookup_weaken.
    + destruct (Hnew' k exk ltac:(lia) Hexk) as [H1 H2]. split; [done|].
      by eapply lookup_weaken_None.
  - by apply He'.
Qed.

(** After a member function has been applied to the executor of [n]. *)
Lemma pending_call root n b exec bm f :
  pending root n b exec bm →
  (∀ ex, id_ (f ex) = id_ ex ∧ node_ (f ex) = node_ ex
         ∧ class_ (f ex) = class_ ex) →
  pending root n b exec (call exec f bm)
  ∧ visited (call exec f bm) = visited bm
  ∧ objPool (qctx (call exec f bm)) !! exec = f <$> objPool (qctx bm) !! exec.
Proof.
  intros (Hok & Hext & -> & Hfresh & (ex & Hex & Hid & Hnode & Hcls)
          & Hdom & Hnew & Hvar) Hf.
  set (exec := length (objPool (qctx b))) in *.
  assert (∀ k, k ≠ exec →
            objPool (qctx (call exec f bm)) !! k = objPool (qctx bm) !! k)
    as Hother.
  { intros k Hk. simpl. by apply list_lookup_alter_ne. }
  assert (objPool (qctx (call exec f bm)) !! exec
          = f <$> objPool (qctx bm) !! exec) as Hself.
  { simpl. apply list_lookup_alter_eq. }
  split_and!; [|done|done].
  unfold pending. split_and!; try done.
  - destruct Hok as [Hm Hr]. split; [|done].
    intros i e Hi. destruct (Hm i e Hi) as (m & Hm1 & Hm2 & Hmod & Hcl).
    exists m. split_and!; try done.
    eapply models_later; [..|exact Hmod]; try done.
    apply Hother. intros ->. by apply Hfresh in Hi.
  - destruct Hext as (Hv & Hl & Hp & He & Hn).
    unfold extends. split_and!; try done.
    + simpl. by rewrite length_alter.
    + intros k Hk. rewrite Hother by (unfold exec; lia). by apply Hp.
  - exists (f ex). destruct (Hf ex) as (Hf1 & Hf2 & Hf3).
    rewrite Hself, Hex, Hf1, Hf2, Hf3. done.
  - intros k exk Hk. rewrite Hother by lia. by apply Hnew.
Qed.

(** When the children of [n] are built and its executor is wired, the
    call memoizes the executor and returns. *)
Lemma pending_done root n b exec bm ex :
  unique_ids root → reach root n →
  visited b !! PlanNode.id n = None →
  pending root n b exec bm →
  (∀ c, c ∈ children n → covers c bm) →
  objPool (qctx bm) !! exec = Some ex →
  wired (visited bm) n ex →
  (length (PlanNode.dependencies n) ≤ 2)%nat →
  has_controls n →
  let b' := logged (EvReturn (PlanNode.id n) exec)
              (visited_insert (PlanNode.id n) exec bm) in
  build_ok root b' ∧ built n b exec b'.
Proof.
  intros U Hn Hmiss
    (Hok & Hext & -> & Hfresh & (ex' & Hex' & Hid & Hnode & Hcls)
     & Hdom & Hnew & Hvar) Hcov Hex Hw Hlen Hctl.
  rewrite Hex in Hex'. injection Hex' as <-.
  assert (visited bm !! PlanNode.id n = None) as Hmiss'.
  { destruct (visited bm !! PlanNode.id n) as [e|] eqn:He; [|done].
    destruct (Hdom (PlanNode.id n)) as [[e' He']|(c & m & Hc & Hm & Hidm)].
    - by rewrite He.
    - by rewrite Hmiss in He'.
    - by eapply children_fresh_id in Hidm. }
  simpl. unfold visited_insert. rewrite Hmiss'.
  set (exec := length (objPool (qctx b))) in *.
  set (v' := <[PlanNode.id n := exec]> (visited bm)).
  assert (visited bm ⊆ v') as Hsub by (by apply insert_subseteq).
  destruct Hext as (Hv & Hl & Hp & He & Hnv).
  split.
  - destruct Hok as [Hm Hr]. split; simpl.
    + intros i e Hi. fold v' in Hi.
      destruct (decide (i = PlanNode.id n)) as [->|Hne].
      * unfold v' in Hi. rewrite lookup_insert_eq in Hi. injection Hi as <-.
        exists n. split_and!; try done.
        -- exists ex. split_and!; try done. by eapply wired_mono.
        -- intros c Hc. eapply is_Some_weaken; [exact Hsub|].
           apply (Hcov c Hc). constructor.
      * unfold v' in Hi. rewrite lookup_insert_ne in Hi by done.
        destruct (Hm i e Hi) as (m & Hm1 & Hm2 & Hmod & Hcl).
        exists m. split_and!; try done.
        -- eapply models_later; [..|exact Hmod]; done.
        -- intros c Hc. eapply is_Some_weaken; [exact Hsub|]. by apply Hcl.
    + intros i e. rewrite !elem_of_app, !list_elem_of_singleton.
      intros [[Hi|[=]]|[= -> ->]].
      * eapply lookup_weaken; [|exact Hsub]. by apply Hr.
      * apply lookup_insert_eq.
  - unfold built; simpl. fold v'. split_and!.
    + unfold extends; simpl. fold v'. split_and!; try done.
      * by etrans.
      * intros i e Hi. destruct (decide (i = PlanNode.id n)) as [->|Hne].
        -- unfold v' in Hi. rewrite lookup_insert_eq in Hi.
           injection Hi as <-. right. unfold exec. lia.
        -- unfold v' in Hi. rewrite lookup_insert_ne in Hi by done.
           by apply Hnv.
    + apply lookup_insert_eq.
    + intros m Hm. simpl.
      apply reach_inv in Hm as [->|(c & Hc & Hm)].
      * unfold v'. rewrite lookup_insert_eq. by eexists.
      * eapply is_Some_weaken; [exact Hsub|]. by apply (Hcov c Hc).
    + intros i Hi. destruct (decide (i = PlanNode.id n)) as [->|Hne].
      * right. exists n. split; [constructor|done].
      * unfold v' in Hi. rewrite lookup_insert_ne in Hi by done.
        destruct (Hdom i Hi) as [?|(c & m & Hc & Hm & Hidm)]; [by left|].
        right. exists m. split; [|done]. by eapply reach_child.
    + intros h exh Hh Hexh.
      destruct (decide (h = exec)) as [->|Hne].
      * rewrite Hex in Hexh. injection Hexh as <-. rewrite Hid.
        split; [apply lookup_insert_eq|done].
      * destruct (Hnew h exh ltac:(unfold exec in *; lia) Hexh) as [H1 H2].
        split; [|done]. by eapply lookup_weaken.
Qed.

Lemma pending_ok root n b exec bm : pending root n b exec bm → build_ok root bm.
Proof. by intros [? _]. Qed.

Lemma covers_mono c b b' : visited b ⊆ visited b' → covers c b → covers c b'.
Proof. intros Hsub Hc m Hm. eapply is_Some_weaken; [exact Hsub|]. by apply Hc. Qed.

Lemma extends_visited b b' : extends b b' → visited b ⊆ visited b'.
Proof. by intros [? _]. Qed.

Lemma dependsOn_keeps h ex :
  id_ (dependsOn h ex) = id_ ex ∧ node_ (dependsOn h ex) = node_ ex
  ∧ class_ (dependsOn h ex) = class_ ex.
Proof. done. Qed.

Lemma setThenBody_keeps h ex :
  id_ (setThenBody h ex) = id_ ex ∧ node_ (setThenBody h ex) = node_ ex
  ∧ class_ (setThenBody h ex) = class_ ex.
Proof. done. Qed.

Lemma setElseBody_keeps h ex :
  id_ (setElseBody h ex) = id_ ex ∧ node_ (setElseBody h ex) = node_ ex
  ∧ class_ (setElseBody h ex) = class_ ex.
Proof. done. Qed.

Lemma setLoopBody_keeps h ex :
  id_ (setLoopBody h ex) = id_ ex ∧ node_ (setLoopBody h ex) = node_ ex
  ∧ class_ (setLoopBody h ex) = class_ ex.
Proof. done. Qed.

(** ** The builder is sound *)

(** A call for a memoized node. *)
Lemma makeExecutor_hit_sound root n b e :
  unique_ids root → reach root n → build_ok root b →
  visited b !! PlanNode.id n = Some e →
  let b' := logged (EvReturn (PlanNode.id n) e)
              (logged (EvCall (PlanNode.id n) (visited b)) b) in
  build_ok root b' ∧ built n b e b'.
Proof.
  intros U Hn Hok Hv. simpl. split.
  - destruct Hok as [Hm Hr]. split; simpl.
    + intros i e' Hi. destruct (Hm i e' Hi) as (m & Hm1 & Hm2 & Hmod & Hcl).
      exists m. split_and!; try done.
    + intros i e'. rewrite !elem_of_app, !list_elem_of_singleton.
      intros [[Hi|[=]]|[= -> ->]]; [by apply Hr|done].
  - unfold built; simpl. split_and!.
    + unfold extends; simpl. split_and!; auto.
    + done.
    + intros m Hm. simpl.
      eapply (build_ok_covers root b n); eauto.
    + auto.
    + intros h ex Hh Hex. apply lookup_lt_Some in Hex. lia.
Qed.

(** Every call that returns keeps the invariant of the build and has
    the effect described by [built]. *)
Theorem makeExecutor_sound root :
  unique_ids root →
  ∀ n, reach root n →
  ∀ b e b', build_ok root b → makeExecutor n b = inr (e, b') →
  build_ok root b' ∧ built n b e b'.
Proof.
  intros U n. induction n as [n IH] using plan_ind.
  intros Hn b e b' Hok Hrun.
  destruct (visited b !! PlanNode.id n) as [e0|] eqn:Hv.
  { rewrite (makeExecutor_hit _ _ _ Hv) in Hrun. injection Hrun as <- <-.
    by apply makeExecutor_hit_sound. }
  apply makeExecutor_miss in Hrun as (q & bl & Hk & Hlink & ->); [|done].
  destruct (pending_init root n b e q Hok Hk)
    as (Hp & ex0 & Hex0 & Hd0 & Ht0 & He0 & Hl0).
  assert (∀ c, c ∈ children n → ∀ b e b',
            build_ok root b → makeExecutor c b = inr (e, b') →
            build_ok root b' ∧ built c b e b') as IH'.
  { intros c Hc. apply IH; [done|].
    eapply reach_trans; [exact Hn|]. by apply reach_step. }
  clear IH.
  destruct Hlink as
    [Hdeps
    |d h b1 Hdeps Hns Hnl Hd
    |d t o ht b1 he b2 h b3 Hdeps Hsel Hth Hot Ht Ho Hd
    |d l hl b1 h b2 Hdeps Hloop Hbo Hl Hd
    |d0 d1 h0 b1 h1 b2 Hdeps H0 H1].
  - (* no dependency *)
    eapply pending_done; eauto.
    + rewrite (children_leaf n Hdeps). by intros c ?%elem_of_nil.
    + unfold wired, ctrl_then, ctrl_else, ctrl_body.
      rewrite Hdeps, Hd0, Ht0, He0, Hl0. split_and!; try done.
    + rewrite Hdeps. simpl. lia.
    + unfold has_controls. by rewrite Hdeps.
  - (* one dependency *)
    pose proof (children_unary n d Hdeps Hns Hnl) as Hch.
    assert (d ∈ children n) as Hcd by child_of Hch.
    destruct (IH' d Hcd _ _ _ (pending_ok _ _ _ _ _ Hp) Hd) as [Hok1 Hb1].
    destruct (pending_child _ _ _ _ _ d _ _ Hp Hcd Hok1 Hb1)
      as (Hp1 & Hext1 & Hpool1 & Hvd & Hcov1).
    destruct (pending_call _ _ _ _ _ (dependsOn h) Hp1 (dependsOn_keeps h))
      as (Hp2 & Hv2 & Hpool2).
    eapply (pending_done root n b e _ (dependsOn h ex0)); eauto.
    + rewrite Hch. intros c ->%list_elem_of_singleton.
      by eapply covers_mono; [|exact Hcov1].
    + by rewrite Hpool2, Hpool1, Hex0.
    + unfold wired, ctrl_then, ctrl_else, ctrl_body.
      rewrite Hdeps, !decide_False by done.
      simpl. rewrite Hd0, Ht0, He0, Hl0. split_and!; try done.
      repeat constructor. done.
    + rewrite Hdeps. simpl. lia.
    + unfold has_controls. rewrite Hdeps. by split.
  - (* a branch *)
    pose proof (children_select n d t o Hdeps Hsel Hth Hot) as Hch.
    assert (t ∈ children n) as Hct by child_of Hch.
    assert (o ∈ children n) as Hco by child_of Hch.
    assert (d ∈ children n) as Hcd by child_of Hch.
    destruct (IH' t Hct _ _ _ (pending_ok _ _ _ _ _ Hp) Ht) as [Hok1 Hb1].
    destruct (pending_child _ _ _ _ _ t _ _ Hp Hct Hok1 Hb1)
      as (Hp1 & Hext1 & Hpool1 & Hvt & Hcov1).
    destruct (IH' o Hco _ _ _ Hok1 Ho) as [Hok2 Hb2].
    destruct (pending_child _ _ _ _ _ o _ _ Hp1 Hco Hok2 Hb2)
      as (Hp2 & Hext2 & Hpool2 & Hvo & Hcov2).
    destruct (pending_call _ _ _ _ _ (setThenBody ht) Hp2 (setThenBody_keeps ht))
      as (Hp3 & Hv3 & Hpool3).
    destruct (pending_call _ _ _ _ _ (setElseBody he) Hp3 (setElseBody_keeps he))
      as (Hp4 & Hv4 & Hpool4).
    destruct (IH' d Hcd _ _ _ (pending_ok _ _ _ _ _ Hp4) Hd) as [Hok5 Hb5].
    destruct (pending_child _ _ _ _ _ d _ _ Hp4 Hcd Hok5 Hb5)
      as (Hp5 & Hext5 & Hpool5 & Hvd & Hcov5).
    destruct (pending_call _ _ _ _ _ (dependsOn h) Hp5 (dependsOn_keeps h))
      as (Hp6 & Hv6 & Hpool6).
    assert (visited b2 ⊆ visited b3) as Hs2
      by apply (extends_visited _ _ Hext5).
    assert (visited b1 ⊆ visited b3) as Hs1
      by (etrans; [apply (extends_visited _ _ Hext2)|exact Hs2]).
    eapply (pending_done root n b e _
              (dependsOn h (setElseBody he (setThenBody ht ex0)))); eauto.
    + rewrite Hch. intros c Hc.
      rewrite !elem_of_cons, elem_of_nil in Hc.
      destruct Hc as [->|[->|[->|[]]]].
      * by eapply covers_mono; [exact Hs1|].
      * by eapply covers_mono; [exact Hs2|].
      * by eapply covers_mono; [|exact Hcov5].
    + by rewrite Hpool6, Hpool5, Hpool4, Hpool3, Hpool2, Hpool1, Hex0.
    + unfold wired, ctrl_then, ctrl_else, ctrl_body.
      rewrite Hdeps, !decide_True by done.
      simpl. rewrite Hd0, Hl0, Hth, Hot. split_and!; try done.
      * repeat constructor. done.
      * by eapply lookup_weaken.
      * by eapply lookup_weaken.
    + rewrite Hdeps. simpl. lia.
    + unfold has_controls. rewrite Hdeps, Hth, Hot, Hsel. by split.
  - (* a loop *)
    pose proof (children_loop n d l Hdeps Hloop Hbo) as Hch.
    assert (PlanNode.kind n ≠ PlanNode.kSelect) as Hns
      by (rewrite Hloop; discriminate).
    assert (l ∈ children n) as Hcl by child_of Hch.
    assert (d ∈ children n) as Hcd by child_of Hch.
    destruct (IH' l Hcl _ _ _ (pending_ok _ _ _ _ _ Hp) Hl) as [Hok1 Hb1].
    destruct (pending_child _ _ _ _ _ l _ _ Hp Hcl Hok1 Hb1)
      as (Hp1 & Hext1 & Hpool1 & Hvl & Hcov1).
    destruct (pending_call _ _ _ _ _ (setLoopBody hl) Hp1 (setLoopBody_keeps hl))
      as (Hp2 & Hv2 & Hpool2).
    destruct (IH' d Hcd _ _ _ (pending_ok _ _ _ _ _ Hp2) Hd) as [Hok3 Hb3].
    destruct (pending_child _ _ _ _ _ d _ _ Hp2 Hcd Hok3 Hb3)
      as (Hp3 & Hext3 & Hpool3 & Hvd & Hcov3).
    destruct (pending_call _ _ _ _ _ (dependsOn h) Hp3 (dependsOn_keeps h))
      as (Hp4 & Hv4 & Hpool4).
    assert (visited b1 ⊆ visited b2) as Hs1
      by apply (extends_visited _ _ Hext3).
    eapply (pending_done root n b e _ (dependsOn h (setLoopBody hl ex0)));
      eauto.
    + rewrite Hch. intros c Hc.
      rewrite !elem_of_cons, elem_of_nil in Hc.
      destruct Hc as [->|[->|[]]].
      * by eapply covers_mono; [exact Hs1|].
      * by eapply covers_mono; [|exact Hcov3].
    + by rewrite Hpool4, Hpool3, Hpool2, Hpool1, Hex0.
    + unfold wired, ctrl_then, ctrl_else, ctrl_body.
      rewrite Hdeps.
      rewrite !(decide_False (P := PlanNode.kind n = PlanNode.kSelect))
        by done.
      rewrite !decide_True by done.
      simpl. rewrite Hd0, Ht0, He0, Hbo. split_and!; try done.
      * repeat constructor. done.
      * by eapply lookup_weaken.
    + rewrite Hdeps. simpl. lia.
    + unfold has_controls. rewrite Hdeps, Hbo, Hloop. by split.
  - (* two dependencies *)
    pose proof (children_binary n d0 d1 Hdeps) as Hch.
    assert (d0 ∈ children n) as Hc0 by child_of Hch.
    assert (d1 ∈ children n) as Hc1 by child_of Hch.
    destruct (IH' d0 Hc0 _ _ _ (pending_ok _ _ _ _ _ Hp) H0) as [Hok1 Hb1].
    destruct (pending_child _ _ _ _ _ d0 _ _ Hp Hc0 Hok1 Hb1)
      as (Hp1 & Hext1 & Hpool1 & Hv0 & Hcov1).
    destruct (IH' d1 Hc1 _ _ _ Hok1 H1) as [Hok2 Hb2].
    destruct (pending_child _ _ _ _ _ d1 _ _ Hp1 Hc1 Hok2 Hb2)
      as (Hp2 & Hext2 & Hpool2 & Hv1 & Hcov2).
    destruct (pending_call _ _ _ _ _ (dependsOn h0) Hp2 (dependsOn_keeps h0))
      as (Hp3 & Hv3 & Hpool3).
    destruct (pending_call _ _ _ _ _ (dependsOn h1) Hp3 (dependsOn_keeps h1))
      as (Hp4 & Hv4 & Hpool4).
    assert (visited b1 ⊆ visited b2) as Hs1
      by apply (extends_visited _ _ Hext2).
    eapply (pending_done root n b e _ (dependsOn h1 (dependsOn h0 ex0)));
      eauto.
    + rewrite Hch. intros c Hc.
      rewrite !elem_of_cons, elem_of_nil in Hc.
      destruct Hc as [->|[->|[]]].
      * by eapply covers_mono; [exact Hs1|].
      * by eapply covers_mono; [|exact Hcov2].
    + by rewrite Hpool4, Hpool3, Hpool2, Hpool1, Hex0.
    + unfold wired, ctrl_then, ctrl_else, ctrl_body.
      rewrite Hdeps. simpl. rewrite Hd0, Ht0, He0, Hl0.
      split_and!; try done.
      repeat constructor.
      * by eapply lookup_weaken.
      * done.
    + rewrite Hdeps. simpl. lia.
    + unfold has_controls. by rewrite Hdeps.
Qed.

(** ** The log of a build *)

Lemma precedes_app x y l1 l2 :
  x ∈ l1 → y ∈ l2 → precedes x y (l1 ++ l2) = true.
Proof.
  intros Hx Hy. induction l1 as [|z l1 IH]; [by apply elem_of_nil in Hx|].
  simpl. apply elem_of_cons in Hx as [->|Hx].
  - rewrite bool_decide_eq_true_2 by done.
    rewrite bool_decide_eq_true_2 by (apply elem_of_app; by right). done.
  - rewrite IH by done. by rewrite orb_true_r.
Qed.

Lemma precedes_absent x y l1 l2 :
  x ∉ l1 → y ∉ l2 → precedes x y (l1 ++ x :: l2) = false.
Proof.
  intros Hx Hy. induction l1 as [|z l1 IH]; simpl.
  - rewrite (bool_decide_eq_false_2 (y ∈ l2)) by done.
    rewrite andb_false_r. simpl.
    induction l2 as [|w l2 IH2]; [done|]. simpl.
    apply not_elem_of_cons in Hy as [Hy1 Hy2].
    rewrite (bool_decide_eq_false_2 (y ∈ l2)) by done.
    rewrite andb_false_r. simpl. by apply IH2.
  - apply not_elem_of_cons in Hx as [Hx1 Hx2].
    rewrite (bool_decide_eq_false_2 (z = x)) by done. simpl. by apply IH.
Qed.

(** ** The log and the memo map between two states *)

Lemma segment_nil b : segment [] b b [].
Proof.
  unfold segment. rewrite app_nil_r.
  split_and!; try done.
  - by left.
  - by left.
  - by intros ?? [?%elem_of_nil|?%elem_of_nil].
  - by intros ?? ?%elem_of_nil.
  - by intros ?? ?%elem_of_nil.
  - by intros ? ?%elem_of_nil.
Qed.

Lemma segment_of_call c b e b' :
  call_logged c b e b' → ∃ tr, segment [c] b b' tr.
Proof.
  intros (Hlen & Hsub & Hkeys & Hvals & mid & Hev & Hins & Hcalls & Hrets).
  exists (EvCall (PlanNode.id c) (visited b) :: mid
          ++ [EvReturn (PlanNode.id c) e]).
  unfold segment. split_and!; try done.
  - intros k Hk. destruct (Hkeys k Hk) as [?|(m & Hm & Hid)]; [by left|].
    right. exists c, m. split_and!; [by left|done|done].
  - intros i h.
    rewrite !elem_of_cons, !elem_of_app, !list_elem_of_singleton.
    intros [[[=]|[Hi|[=]]]|[[=]|[Hi|[=]]]]; apply (Hins i h); tauto.
  - intros i v. rewrite elem_of_cons, elem_of_app, list_elem_of_singleton.
    intros [[= -> ->]|[Hi|[=]]]; [done|]. by apply (Hcalls _ _ Hi).
  - intros i h. rewrite elem_of_cons. intros [[=]|Hi]. by apply (Hrets i h).
  - intros c' ->%list_elem_of_singleton. exists e, (visited b). split.
    + by left.
    + right. apply elem_of_app. right. by left.
Qed.

Lemma segment_app cs1 cs2 b b1 b2 tr1 tr2 :
  segment cs1 b b1 tr1 → segment cs2 b1 b2 tr2 →
  segment (cs1 ++ cs2) b b2 (tr1 ++ tr2).
Proof.
  intros (Hlen1 & Hsub1 & Hkeys1 & Hvals1 & Hev1 & Hins1 & Hcalls1 & Hrets1
          & Hch1)
         (Hlen2 & Hsub2 & Hkeys2 & Hvals2 & Hev2 & Hins2 & Hcalls2 & Hrets2
          & Hch2).
  unfold segment. split_and!.
  - lia.
  - by etrans.
  - intros k Hk. destruct (Hkeys2 k Hk) as [Hk1|(c & m & Hc & Hm & Hid)].
    + destruct (Hkeys1 k Hk1) as [?|(c & m & Hc & Hm & Hid)]; [by left|].
      right. exists c, m. rewrite elem_of_app. tauto.
    + right. exists c, m. rewrite elem_of_app. tauto.
  - intros k h Hk. destruct (Hvals2 k h Hk) as [Hk1|Hk1]; [|right; lia].
    by apply Hvals1.
  - by rewrite Hev2, Hev1, <- (assoc_L (++)).
  - intros i h. rewrite !elem_of_app. intros Hi.
    assert ((EvInsert i h ∈ tr1 ∨ EvConstruct i h ∈ tr1)
            ∨ (EvInsert i h ∈ tr2 ∨ EvConstruct i h ∈ tr2)) as [Hi'|Hi']
      by tauto.
    + by apply (Hins1 i h).
    + specialize (Hins2 i h Hi'). lia.
  - intros i v. rewrite elem_of_app. intros [Hi|Hi].
    + destruct (Hcalls1 _ _ Hi) as [H1 H2]. split; [done|by etrans].
    + destruct (Hcalls2 _ _ Hi) as [H1 H2]. split; [by etrans|done].
  - intros i h. rewrite elem_of_app. intros [Hi|Hi].
    + by apply (Hrets1 i h).
    + destruct (Hrets2 i h Hi) as [(k & Hk)|Hk]; [|right; lia].
      destruct (Hvals1 k h Hk) as [?|?]; [left; by exists k|by right].
  - intros c. rewrite elem_of_app. intros [Hc|Hc].
    + destruct (Hch1 c Hc) as (h & v & ? & ?). exists h, v.
      rewrite !elem_of_app. tauto.
    + destruct (Hch2 c Hc) as (h & v & ? & ?). exists h, v.
      rewrite !elem_of_app. tauto.
Qed.

(** A member function called on an executor changes neither the log
    nor the memo map nor the number of executors. *)
Lemma segment_call_r cs b b' tr exec f :
  segment cs b b' tr → segment cs b (call exec f b') tr.
Proof.
  unfold segment. simpl. by rewrite length_alter.
Qed.

Lemma segment_call_l cs b b' tr exec f :
  segment cs (call exec f b) b' tr → segment cs b b' tr.
Proof.
  unfold segment. simpl. by rewrite length_alter.
Qed.

(** The log of the edge-linking switch: the calls for the children of
    the node, one after the other, and no insertion of an executor that
    was allocated before. *)
Lemma linked_events n exec b bl :
  (∀ c, c ∈ children n → ∀ b e b',
     makeExecutor c b = inr (e, b') → call_logged c b e b') →
  linked n exec b bl →
  ∃ tr, segment (children n) b bl tr.
Proof.
  intros IH Hlink.
  destruct Hlink as
    [Hdeps
    |d h b1 Hdeps Hns Hnl Hd
    |d t o ht b1 he b2 h b3 Hdeps Hsel Hth Hot Ht Ho Hd
    |d l hl b1 h b2 Hdeps Hloop Hbo Hl Hd
    |d0 d1 h0 b1 h1 b2 Hdeps H0 H1].
  - rewrite (children_leaf n Hdeps). exists []. apply segment_nil.
  - pose proof (children_unary n d Hdeps Hns Hnl) as Hch.
    assert (d ∈ children n) as Hcd by child_of Hch.
    destruct (segment_of_call _ _ _ _ (IH d Hcd _ _ _ Hd)) as (tr & Hs).
    rewrite Hch. exists tr. by apply segment_call_r.
  - pose proof (children_select n d t o Hdeps Hsel Hth Hot) as Hch.
    assert (t ∈ children n) as Hct by child_of Hch.
    assert (o ∈ children n) as Hco by child_of Hch.
    assert (d ∈ children n) as Hcd by child_of Hch.
    destruct (segment_of_call _ _ _ _ (IH t Hct _ _ _ Ht)) as (tr1 & Hs1).
    destruct (segment_of_call _ _ _ _ (IH o Hco _ _ _ Ho)) as (tr2 & Hs2).
    destruct (segment_of_call _ _ _ _ (IH d Hcd _ _ _ Hd)) as (tr3 & Hs3).
    do 2 apply segment_call_l in Hs3.
    rewrite Hch. exists (tr1 ++ tr2 ++ tr3). apply segment_call_r.
    apply (segment_app [t] [o; d] _ _ _ _ _ Hs1).
    apply (segment_app [o] [d] _ _ _ _ _ Hs2 Hs3).
  - pose proof (children_loop n d l Hdeps Hloop Hbo) as Hch.
    assert (l ∈ children n) as Hcl by child_of Hch.
    assert (d ∈ children n) as Hcd by child_of Hch.
    destruct (segment_of_call _ _ _ _ (IH l Hcl _ _ _ Hl)) as (tr1 & Hs1).
    destruct (segment_of_call _ _ _ _ (IH d Hcd _ _ _ Hd)) as (tr2 & Hs2).
    apply segment_call_l in Hs2.
    rewrite Hch. exists (tr1 ++ tr2). apply segment_call_r.
    apply (segment_app [l] [d] _ _ _ _ _ Hs1 Hs2).
  - pose proof (children_binary n d0 d1 Hdeps) as Hch.
    assert (d0 ∈ children n) as Hc0 by child_of Hch.
    assert (d1 ∈ children n) as Hc1 by child_of Hch.
    destruct (segment_of_call _ _ _ _ (IH d0 Hc0 _ _ _ H0)) as (tr1 & Hs1).
    destruct (segment_of_call _ _ _ _ (IH d1 Hc1 _ _ _ H1)) as (tr2 & Hs2).
    rewrite Hch. exists (tr1 ++ tr2). do 2 apply segment_call_r.
    apply (segment_app [d0] [d1] _ _ _ _ _ Hs1 Hs2).
Qed.

(** [visited->insert] keeps the entries of the memo map. *)
Lemma visited_insert_subseteq i e b :
  visited b ⊆ visited (visited_insert i e b).
Proof.
  unfold visited_insert; simpl.
  destruct (visited b !! i) eqn:Hi; [done|]. by apply insert_subseteq.
Qed.

Lemma visited_insert_keys i e b k :
  is_Some (visited (visited_insert i e b) !! k) →
  k = i ∨ is_Some (visited b !! k).
Proof.
  unfold visited_insert; simpl.
  destruct (visited b !! i) eqn:Hi; [by right|].
  destruct (decide (k = i)) as [->|Hne]; [by left|].
  rewrite lookup_insert_ne by done. by right.
Qed.

Lemma visited_insert_values i e b k h :
  visited (visited_insert i e b) !! k = Some h →
  h = e ∨ visited b !! k = Some h.
Proof.
  unfold visited_insert; simpl.
  destruct (visited b !! i) eqn:Hi; [by right|].
  destruct (decide (k = i)) as [->|Hne].
  - rewrite lookup_insert_eq. intros [= <-]. by left.
  - rewrite lookup_insert_ne by done. by right.
Qed.

Lemma makeExecutor_logged n :
  ∀ b e b', makeExecutor n b = inr (e, b') → call_logged n b e b'.
Proof.
  induction n as [n IH] using plan_ind. intros b e b' Hrun.
  destruct (visited b !! PlanNode.id n) as [e0|] eqn:Hv.
  { rewrite (makeExecutor_hit _ _ _ Hv) in Hrun. injection Hrun as <- <-.
    unfold call_logged. simpl. split_and!; [done|done|by left|by left|].
    exists []. simpl. split_and!.
    - by rewrite <- (assoc_L (++)).
    - by intros ?? [?%elem_of_nil|?%elem_of_nil].
    - by intros ?? ?%elem_of_nil.
    - intros i h [= _ ->]%list_elem_of_singleton. left. by eexists. }
  apply makeExecutor_miss in Hrun as (q & bl & Hk & Hlink & ->); [|done].
  apply makeExecutorOfKind_inr in Hk as (cls & _ & -> & Hpool & _).
  apply (linked_events _ _ _ _ IH) in Hlink
    as (mid & Hlen & Hsub & Hkeys & Hvals & Hev & Hins & Hcalls & Hrets & _).
  simpl in Hlen, Hsub, Hkeys, Hvals, Hev, Hins, Hcalls, Hrets.
  rewrite Hpool, length_app in Hlen, Hvals, Hins, Hrets.
  simpl in Hlen, Hvals, Hins, Hrets.
  pose proof (visited_insert_subseteq (PlanNode.id n)
                (length (objPool (qctx b))) bl) as Hgrow.
  unfold call_logged. simpl. split_and!.
  - lia.
  - by etrans.
  - intros k Hk. apply visited_insert_keys in Hk as [->|Hk].
    + right. exists n. split; [constructor|done].
    + destruct (Hkeys k Hk) as [?|(c & m & Hc & Hm & Hid)]; [by left|].
      right. exists m. split; [by eapply reach_child|done].
  - intros k h Hk. apply visited_insert_values in Hk as [->|Hk].
    + right. lia.
    + destruct (Hvals k h Hk) as [?|?]; [by left|right; lia].
  - exists (EvConstruct (PlanNode.id n) (length (objPool (qctx b))) :: mid
            ++ [EvInsert (PlanNode.id n) (length (objPool (qctx b)))]).
    split_and!.
    + rewrite Hev. rewrite <- !(assoc_L (++)). simpl.
      by rewrite <- !(assoc_L (++)).
    + intros i h.
      rewrite !elem_of_cons, !elem_of_app, !list_elem_of_singleton.
      intros [[[=]|[Hi|[= -> ->]]]|[[= -> ->]|[Hi|[=]]]]; try lia.
      * assert (length (objPool (qctx b)) + 1 ≤ h)%nat; [|lia].
        apply (Hins i h). tauto.
      * assert (length (objPool (qctx b)) + 1 ≤ h)%nat; [|lia].
        apply (Hins i h). tauto.
    + intros i v. rewrite elem_of_cons, elem_of_app, list_elem_of_singleton.
      intros [[=]|[Hi|[=]]]. destruct (Hcalls _ _ Hi) as [H1 H2].
      split; [done|by etrans].
    + intros i h. simpl.
      rewrite elem_of_cons, !elem_of_app, !list_elem_of_singleton.
      intros [[=]|[[Hi|[=]]|[= -> ->]]]; [|right; lia].
      destruct (Hrets i h Hi) as [?|?]; [by left|right; lia].
Qed.

(** ** The slots of the execution context *)

Lemma exist_mono name q q' :
  ectx q ⊆ ectx q' → exist name q = true → exist name q' = true.
Proof.
  unfold exist. intros Hsub. rewrite !bool_decide_eq_true.
  intros [r Hr]. exists r. by eapply lookup_weaken.
Qed.

Lemma slots_from_call p0 exec f b :
  (∀ ex, node_ (f ex) = node_ ex) →
  slots_from p0 b → slots_from p0 (call exec f b).
Proof.
  intros Hf Hs h ex Hh. simpl.
  destruct (decide (exec = h)) as [->|Hne].
  - rewrite list_lookup_alter_eq.
    destruct (objPool (qctx b) !! h) as [ex0|] eqn:Hex; [|done].
    simpl. intros [= <-]. rewrite Hf. by apply (Hs h ex0).
  - rewrite list_lookup_alter_ne by done. by apply Hs.
Qed.

Lemma linked_slots p0 n exec b bl :
  (∀ c, c ∈ children n → ∀ b e b',
     slots_from p0 b → makeExecutor c b = inr (e, b') →
     slots_from p0 b' ∧ ectx (qctx b) ⊆ ectx (qctx b')) →
  linked n exec b bl →
  slots_from p0 b →
  slots_from p0 bl ∧ ectx (qctx b) ⊆ ectx (qctx bl).
Proof.
  intros IH Hlink Hs.
  destruct Hlink as
    [Hdeps
    |d h b1 Hdeps Hns Hnl Hd
    |d t o ht b1 he b2 h b3 Hdeps Hsel Hth Hot Ht Ho Hd
    |d l hl b1 h b2 Hdeps Hloop Hbo Hl Hd
    |d0 d1 h0 b1 h1 b2 Hdeps H0 H1].
  - done.
  - pose proof (children_unary n d Hdeps Hns Hnl) as Hch.
    assert (d ∈ children n) as Hcd by child_of Hch.
    destruct (IH d Hcd _ _ _ Hs Hd) as [Hs1 Hsub1].
    split; [by apply slots_from_call|done].
  - pose proof (children_select n d t o Hdeps Hsel Hth Hot) as Hch.
    assert (t ∈ children n) as Hct by child_of Hch.
    assert (o ∈ children n) as Hco by child_of Hch.
    assert (d ∈ children n) as Hcd by child_of Hch.
    destruct (IH t Hct _ _ _ Hs Ht) as [Hs1 Hsub1].
    destruct (IH o Hco _ _ _ Hs1 Ho) as [Hs2 Hsub2].
    apply (slots_from_call p0 exec (setThenBody ht)) in Hs2; [|done].
    apply (slots_from_call p0 exec (setElseBody he)) in Hs2; [|done].
    destruct (IH d Hcd _ _ _ Hs2 Hd) as [Hs3 Hsub3].
    split; [by apply slots_from_call|].
    etrans; [exact Hsub1|]. etrans; [exact Hsub2|]. exact Hsub3.
  - pose proof (children_loop n d l Hdeps Hloop Hbo) as Hch.
    assert (l ∈ children n) as Hcl by child_of Hch.
    assert (d ∈ children n) as Hcd by child_of Hch.
    destruct (IH l Hcl _ _ _ Hs Hl) as [Hs1 Hsub1].
    apply (slots_from_call p0 exec (setLoopBody hl)) in Hs1; [|done].
    destruct (IH d Hcd _ _ _ Hs1 Hd) as [Hs2 Hsub2].
    split; [by apply slots_from_call|].
    etrans; [exact Hsub1|]. exact Hsub2.
  - pose proof (children_binary n d0 d1 Hdeps) as Hch.
    assert (d0 ∈ children n) as Hc0 by child_of Hch.
    assert (d1 ∈ children n) as Hc1 by child_of Hch.
    destruct (IH d0 Hc0 _ _ _ Hs H0) as [Hs1 Hsub1].
    destruct (IH d1 Hc1 _ _ _ Hs1 H1) as [Hs2 Hsub2].
    split; [apply slots_from_call; [done|]; by apply slots_from_call|].
    etrans; [exact Hsub1|]. exact Hsub2.
Qed.

(** No call removes or changes a slot, and every executor allocated
    since the pool had [p0] entries has the slot of its output variable. *)
Lemma makeExecutor_slots p0 n :
  ∀ b e b', slots_from p0 b → makeExecutor n b = inr (e, b') →
  slots_from p0 b' ∧ ectx (qctx b) ⊆ ectx (qctx b').
Proof.
  induction n as [n IH] using plan_ind. intros b e b' Hs Hrun.
  destruct (visited b !! PlanNode.id n) as [e0|] eqn:Hv.
  { rewrite (makeExecutor_hit _ _ _ Hv) in Hrun. by injection Hrun as <- <-. }
  apply makeExecutor_miss in Hrun as (q & bl & Hk & Hlink & ->); [|done].
  apply makeExecutorOfKind_inr in Hk
    as (cls & _ & -> & Hpool & _ & Hvar & Hsub).
  apply (linked_slots p0) in Hlink as [Hs' Hsub']; [|exact IH|].
  - split; [exact Hs'|]. simpl in *. by etrans.
  - intros h ex Hh. simpl. rewrite Hpool.
    destruct (decide (h < length (objPool (qctx b)))%nat) as [Hlt|Hge].
    + rewrite lookup_app_l by done. intros Hex.
      eapply exist_mono; [exact Hsub|]. by apply (Hs h ex).
    + intros Hex. pose proof (lookup_lt_Some _ _ _ Hex) as Hlt.
      rewrite length_app in Hlt. simpl in Hlt.
      assert (h = length (objPool (qctx b))) as -> by lia.
      rewrite list_lookup_middle in Hex by done. injection Hex as <-.
      simpl. unfold exist. apply bool_decide_eq_true.
      by apply elem_of_dom.
Qed.

(** ** Aborts *)

Lemma bind_inl {A B} (m : Abort + A) (f : A → Abort + B) (a : Abort) :
  m ≫= f = inl a → m = inl a ∨ ∃ x, m = inr x ∧ f x = inl a.
Proof. destruct m as [x|x]; simpl; [intros [= ->]; by left|eauto]. Qed.

(** Every abort comes from a node that the builder has come to: a kind
    outside the dispatch, more than two dependencies, or a missing
    control child. *)
Lemma makeExecutor_abort n :
  ∀ b a, makeExecutor n b = inl a →
  ∃ m, reach n m
       ∧ ((a = FatalUnknownKind (PlanNode.kind m)
           ∧ executorClass (PlanNode.kind m) = None)
          ∨ (a = FatalUnsupportedDependencies
                   (length (PlanNode.dependencies m))
             ∧ (2 < length (PlanNode.dependencies m))%nat)
          ∨ (a = NullNode (PlanNode.id m) ∧ ¬ has_controls m)).
Proof.
  induction n as [n IH] using plan_ind. intros b a Hrun.
  assert (∀ c b a, c ∈ children n → makeExecutor c b = inl a →
            ∃ m, reach n m
              ∧ ((a = FatalUnknownKind (PlanNode.kind m)
                  ∧ executorClass (PlanNode.kind m) = None)
                 ∨ (a = FatalUnsupportedDependencies
                          (length (PlanNode.dependencies m))
                    ∧ (2 < length (PlanNode.dependencies m))%nat)
                 ∨ (a = NullNode (PlanNode.id m) ∧ ¬ has_controls m)))
    as IH'.
  { intros c b0 a0 Hc Hc'. destruct (IH c Hc b0 a0 Hc') as (m & Hm & Hbad).
    exists m. split; [by eapply reach_child|done]. }
  clear IH.
  destruct n as [i k ds ov th ot bo]. simpl in Hrun.
  destruct (visited b !! i) as [e0|]; [discriminate|].
  apply bind_inl in Hrun as [Hk|([exec q] & Hk & Hrun)].
  { unfold makeExecutorOfKind in Hk. simpl in Hk.
    destruct (executorClass k) as [cls|] eqn:Hcls; [discriminate|].
    injection Hk as <-. eexists. split; [constructor|]. left. done. }
  apply bind_inl in Hrun as [Hlink|(bl & _ & [=])].
  destruct ds as [|d0 [|d1 [|d2 ds]]].
  - discriminate.
  - apply bind_inl in Hlink as [Hctl|(b2 & Hctl & Hdep)].
    + destruct (decide (k = PlanNode.kSelect)) as [Hsel|Hsel].
      * destruct th as [t|].
        -- apply bind_inl in Hctl as [Ht|([ht b1] & Ht & Hctl)].
           { eapply IH'; [|exact Ht]. unfold children; simpl.
             rewrite decide_True by done. destruct ot; by left. }
           destruct ot as [o|].
           ++ apply bind_inl in Hctl as [Ho|([he b1'] & Ho & [=])].
              eapply IH'; [|exact Ho].
              rewrite (children_select _ d0 t o); try done.
              right. by left.
           ++ injection Hctl as <-. eexists. split; [constructor|].
              right; right. split; [done|]. unfold has_controls; simpl.
              intros [Hc _]. destruct (Hc Hsel) as [_ [? [=]]].
        -- injection Hctl as <-. eexists. split; [constructor|].
           right; right. split; [done|]. unfold has_controls; simpl.
           intros [Hc _]. destruct (Hc Hsel) as [[? [=]] _].
      * destruct (decide (k = PlanNode.kLoop)) as [Hloop|Hloop];
          [|discriminate].
        destruct bo as [l|].
        -- apply bind_inl in Hctl as [Hl|([hl b1] & Hl & [=])].
           eapply IH'; [|exact Hl].
           rewrite (children_loop _ d0 l); try done. by left.
        -- injection Hctl as <-. eexists. split; [constructor|].
           right; right. split; [done|]. unfold has_controls; simpl.
           intros [_ Hc]. destruct (Hc Hloop) as [? [=]].
    + apply bind_inl in Hdep as [Hdep|([h b3] & _ & [=])].
      eapply IH'; [|exact Hdep].
      destruct (decide (k = PlanNode.kSelect)) as [Hsel|Hsel].
      * destruct th as [t|]; [|discriminate].
        apply bind_inr in Hctl as ([ht b1] & _ & Hctl).
        destruct ot as [o|]; [|discriminate].
        rewrite (children_select _ d0 t o); try done. do 2 right. by left.
      * destruct (decide (k = PlanNode.kLoop)) as [Hloop|Hloop].
        -- destruct bo as [l|]; [|discriminate].
           rewrite (children_loop _ d0 l); try done. right. by left.
        -- rewrite (children_unary _ d0); try done. by left.
  - apply bind_inl in Hlink as [H0|([h0 b1] & H0 & Hlink)].
    + eapply IH'; [|exact H0]. by left.
    + apply bind_inl in Hlink as [H1|([h1 b2] & H1 & [=])].
      eapply IH'; [|exact H1]. right. by left.
  - injection Hlink as <-. eexists. split; [constructor|].
    right; left. split; [done|]. simpl. lia.
Qed.

(** ** The built graph *)

Lemma build_ok_start root q :
  build_ok root {| qctx := q; visited := ∅; events := [] |}.
Proof.
  split; simpl.
  - intros i e Hi. by rewrite lookup_empty in Hi.
  - by intros i e ?%elem_of_nil.
Qed.

(** What [create] leaves behind for a plan with unique ids. *)
Lemma create_sound root q e b' :
  unique_ids root → create root q = inr (e, b') →
  build_ok root b'
  ∧ built root {| qctx := q; visited := ∅; events := [] |} e b'.
Proof.
  intros U Hrun. eapply makeExecutor_sound; eauto.
  - constructor.
  - apply build_ok_start.
Qed.

(** The memoized executor of a node of the plan. *)
Lemma create_models root q e b' n :
  unique_ids root → create root q = inr (e, b') → reach root n →
  ∃ h, visited b' !! PlanNode.id n = Some h ∧ models b' n h
       ∧ (length (objPool q) ≤ h)%nat.
Proof.
  intros U Hrun Hn.
  destruct (create_sound _ _ _ _ U Hrun)
    as ([Hm Hr] & Hext & Hroot & Hcov & Hdom & Hnew).
  destruct (Hcov n Hn) as [h Hh]. exists h. split; [done|].
  destruct (Hm _ _ Hh) as (n' & Hn' & Hid & Hmod & _).
  assert (n' = n) as -> by (by apply U).
  split; [done|].
  destruct Hext as (_ & _ & _ & _ & Hnv).
  destruct (Hnv _ _ Hh) as [Hold|Hge]; [|done].
  simpl in Hold. by rewrite lookup_empty in Hold.
Qed.

(** C1. In a plan whose nodes are told apart by their ids (a DAG, in
    which a node may have several parents), a call of [create] that
    returns leaves, for every node [n] it has come to, exactly one
    executor of [n] among the executors it has allocated: the memoized
    one, which is finished and whose edges go to the memoized executors
    of the children of [n]. Every call of [makeExecutor] for [n] during
    the build returned that executor, two nodes never share an executor,
    and every allocated executor is the executor of a node of the plan. *)
Theorem create_one_executor_per_node root q e b' :
  unique_ids root → create root q = inr (e, b') →
  (∀ n, reach root n →
     ∃ h, visited b' !! PlanNode.id n = Some h
          ∧ models b' n h
          ∧ (length (objPool q) ≤ h)%nat
          ∧ (∀ h' ex', (length (objPool q) ≤ h')%nat →
               objPool (qctx b') !! h' = Some ex' →
               id_ ex' = PlanNode.id n → h' = h)
          ∧ (∀ h', EvReturn (PlanNode.id n) h' ∈ events b' → h' = h))
  ∧ (∀ n m, reach root n → reach root m →
       visited b' !! PlanNode.id n = visited b' !! PlanNode.id m → n = m)
  ∧ (∀ h ex, (length (objPool q) ≤ h)%nat →
       objPool (qctx b') !! h = Some ex →
       reach root (node_ ex)
       ∧ visited b' !! PlanNode.id (node_ ex) = Some h)
  ∧ visited b' !! PlanNode.id root = Some e.
Proof.
  intros U Hrun.
  destruct (create_sound _ _ _ _ U Hrun)
    as ([Hm Hr] & Hext & Hroot & Hcov & Hdom & Hnew).
  split_and!.
  - intros n Hn.
    destruct (create_models _ _ _ _ n U Hrun Hn) as (h & Hh & Hmod & Hge).
    exists h. split_and!; try done.
    + intros h' ex' Hh' Hex' Hid.
      destruct (Hnew h' ex' Hh' Hex') as [Hv _].
      rewrite Hid, Hh in Hv. by injection Hv.
    + intros h' Hret. apply Hr in Hret. rewrite Hh in Hret.
      by injection Hret.
  - intros n m Hn Hm' Heq.
    destruct (create_models _ _ _ _ n U Hrun Hn)
      as (h & Hh & (ex & Hex & _ & Hnode & _) & _).
    destruct (create_models _ _ _ _ m U Hrun Hm')
      as (h' & Hh' & (ex' & Hex' & _ & Hnode' & _) & _).
    rewrite Hh, Hh' in Heq. injection Heq as <-.
    rewrite Hex in Hex'. injection Hex' as <-. by rewrite <- Hnode.
  - intros h ex Hh Hex. destruct (Hnew h ex Hh Hex) as [Hv _].
    destruct (Hm _ _ Hv) as (n & Hn & Hid & (ex' & Hex' & _ & Hnode & _) & _).
    rewrite Hex in Hex'. injection Hex' as <-.
    rewrite Hnode. split; [done|]. by rewrite Hid.
  - done.
Qed.

(** C2, as the code has it. A call of [makeExecutor] for a node that is
    not memoized, and whose id no node below it has, when it returns: it
    has logged its entry, the construction of the executor [e], the
    calls for the children of the node, and only then the insertion of
    [e] into the memo map, directly before the return. Every call made
    in between, the calls for the children among them, has found a memo
    map without an entry for the node, which holds what the map held at
    the entry and which the final map holds; the executor [e] is
    inserted nowhere earlier. In the final map the entry of the node is
    [e]. The call for every child is entered and returns before the
    insertion. *)
Theorem memo_insert_follows_recursion n b e b' :
  visited b !! PlanNode.id n = None →
  (∀ c m, c ∈ children n → reach c m → PlanNode.id m ≠ PlanNode.id n) →
  makeExecutor n b = inr (e, b') →
  ∃ mid,
    let tr := [EvCall (PlanNode.id n) (visited b);
               EvConstruct (PlanNode.id n) e]
              ++ mid
              ++ [EvInsert (PlanNode.id n) e; EvReturn (PlanNode.id n) e] in
    events b' = events b ++ tr
    ∧ (∀ i, EvInsert i e ∉ mid)
    ∧ (∀ i v, EvCall i v ∈ mid →
         v !! PlanNode.id n = None ∧ visited b ⊆ v ∧ v ⊆ visited b')
    ∧ visited b' !! PlanNode.id n = Some e
    ∧ ∀ c, c ∈ children n →
        ∃ h v, EvCall (PlanNode.id c) v ∈ mid
               ∧ v !! PlanNode.id n = None
               ∧ EvReturn (PlanNode.id c) h ∈ mid
               ∧ precedes (EvReturn (PlanNode.id c) h)
                   (EvInsert (PlanNode.id n) e) tr = true
               ∧ precedes (EvCall (PlanNode.id c) v)
                   (EvInsert (PlanNode.id n) e) tr = true
               ∧ precedes (EvInsert (PlanNode.id n) e)
                   (EvCall (PlanNode.id c) v) tr = false.
Proof.
  intros Hmiss Hbelow Hrun.
  apply makeExecutor_miss in Hrun as (q & bl & Hk & Hlink & ->); [|done].
  apply makeExecutorOfKind_inr in Hk as (cls & _ & -> & Hpool & _).
  apply linked_events in Hlink
    as (mid & _ & Hsub & Hkeys & _ & Hev & Hins & Hcalls & _ & Hch);
    [|intros c _; apply makeExecutor_logged].
  simpl in Hsub, Hkeys, Hev, Hins, Hcalls.
  rewrite Hpool, length_app in Hins. simpl in Hins.
  set (e := length (objPool (qctx b))) in *.
  assert (∀ i, EvInsert i e ∉ mid) as Hfresh.
  { intros i Hi. specialize (Hins i e (or_introl Hi)). lia. }
  assert (visited bl !! PlanNode.id n = None) as Hlast.
  { apply eq_None_not_Some. intros Hsome.
    destruct (Hkeys _ Hsome) as [Hb|(c & m & Hc & Hm & Hid)].
    - rewrite Hmiss in Hb. by destruct Hb.
    - by apply (Hbelow c m). }
  assert (visited (logged (EvReturn (PlanNode.id n) e)
                     (visited_insert (PlanNode.id n) e bl))
          = <[PlanNode.id n := e]> (visited bl)) as Hfinal.
  { unfold visited_insert; simpl. by rewrite Hlast. }
  assert (∀ i v, EvCall i v ∈ mid →
            v !! PlanNode.id n = None ∧ visited b ⊆ v
            ∧ v ⊆ <[PlanNode.id n := e]> (visited bl)) as Hsnap.
  { intros i v Hi. destruct (Hcalls _ _ Hi) as [H1 H2]. split_and!.
    - by eapply lookup_weaken_None.
    - done.
    - etrans; [exact H2|]. by apply insert_subseteq. }
  exists mid. cbv zeta. rewrite Hfinal. simpl. split_and!.
  - rewrite Hev. repeat (rewrite <- (assoc_L (++)); simpl). done.
  - done.
  - done.
  - apply lookup_insert_eq.
  - intros c Hc. destruct (Hch c Hc) as (h & v & Hcall & Hret).
    destruct (Hsnap _ _ Hcall) as (Hv & _).
    pose proof (precedes_app (EvCall (PlanNode.id c) v)
                  (EvInsert (PlanNode.id n) e)
                  (EvCall (PlanNode.id n) (visited b)
                     :: EvConstruct (PlanNode.id n) e :: mid)
                  [EvInsert (PlanNode.id n) e; EvReturn (PlanNode.id n) e])
      as Hp1.
    pose proof (precedes_app (EvReturn (PlanNode.id c) h)
                  (EvInsert (PlanNode.id n) e)
                  (EvCall (PlanNode.id n) (visited b)
                     :: EvConstruct (PlanNode.id n) e :: mid)
                  [EvInsert (PlanNode.id n) e; EvReturn (PlanNode.id n) e])
      as Hp2.
    pose proof (precedes_absent (EvInsert (PlanNode.id n) e)
                  (EvCall (PlanNode.id c) v)
                  (EvCall (PlanNode.id n) (visited b)
                     :: EvConstruct (PlanNode.id n) e :: mid)
                  [EvReturn (PlanNode.id n) e])
      as Hp3.
    exists h, v. split_and!; try done.
    + apply Hp2; [by do 2 right|by left].
    + apply Hp1; [by do 2 right|by left].
    + apply Hp3.
      * rewrite !not_elem_of_cons. split_and!; [done|done|apply Hfresh].
      * by rewrite list_elem_of_singleton.
Qed.

(** C3. A call of [makeExecutor] for a node that is not memoized stops
    at the first [LOG(FATAL)] when the kind of the node is outside the
    dispatch, and at the second one, with no edge linked, when the kind
    is known and the node has more than two dependencies. In a plan with
    unique ids [create] aborts whenever it can come to such a node.
    Conversely, when every node that [create] can come to has a kind of
    the dispatch and at most two dependencies, no [LOG(FATAL)] is
    reached, and [create] returns an executor when moreover the branch
    and loop nodes have their control children. *)
Theorem build_aborts_on_unsupported_nodes root q n b :
  (visited b !! PlanNode.id n = None →
     (executorClass (PlanNode.kind n) = None →
        makeExecutor n b = inl (FatalUnknownKind (PlanNode.kind n)))
     ∧ (executorClass (PlanNode.kind n) ≠ None →
        (2 < length (PlanNode.dependencies n))%nat →
        makeExecutor n b
        = inl (FatalUnsupportedDependencies
                 (length (PlanNode.dependencies n)))))
  ∧ (unique_ids root → reach root n → ¬ supported n →
       ∃ a, create root q = inl a)
  ∧ ((∀ m, reach root m → supported m) →
       ∀ a, create root q = inl a → is_fatal a = false)
  ∧ ((∀ m, reach root m → supported m ∧ has_controls m) →
       ∃ e b', create root q = inr (e, b')).
Proof.
  split_and!.
  - intros Hmiss. destruct n as [i k ds ov th ot bo]. simpl in *.
    rewrite Hmiss. unfold makeExecutorOfKind. simpl. split.
    + by intros ->.
    + intros Hk Hlen. destruct (executorClass k) as [cls|]; [|done].
      destruct ds as [|d0 [|d1 [|d2 ds]]]; simpl in Hlen; try lia.
      reflexivity.
  - intros U Hn Hbad.
    destruct (create root q) as [a|[e b']] eqn:Hrun; [by exists a|].
    destruct (create_models _ _ _ _ n U Hrun Hn)
      as (h & _ & (ex & _ & _ & _ & Hcls & Hlen & _) & _).
    destruct Hbad. split; [by rewrite Hcls|done].
  - intros Hall a Hrun.
    apply makeExecutor_abort in Hrun
      as (m & Hm & [[-> Hk]|[[-> Hlen]|[-> _]]]).
    + by destruct (Hall m Hm) as [? _].
    + destruct (Hall m Hm) as [_ ?]. lia.
    + done.
  - intros Hall.
    destruct (create root q) as [a|[e b']] eqn:Hrun; [|by eauto].
    apply makeExecutor_abort in Hrun
      as (m & Hm & [[-> Hk]|[[-> Hlen]|[-> Hctl]]]).
    + by destruct (Hall m Hm) as [[? _] _].
    + destruct (Hall m Hm) as [[_ ?] _]. lia.
    + by destruct (Hall m Hm) as [_ ?].
Qed.

(** C7. After a call of [create] that returns, in a plan with unique
    ids, every node of the kind [kSelect] (a branch node has exactly one
    dependency, its ordinary predecessor) has a then child and an
    otherwise child, and its executor points to the finished executors
    of both; every node of the kind [kLoop] has a body, and its executor
    points to the finished executor of the body. The build reads the
    plan only: no condition value enters it. *)
Theorem control_children_are_attached root q e b' n d :
  unique_ids root → create root q = inr (e, b') →
  reach root n → PlanNode.dependencies n = [d] →
  ∃ h ex,
    visited b' !! PlanNode.id n = Some h
    ∧ objPool (qctx b') !! h = Some ex
    ∧ (PlanNode.kind n = PlanNode.kSelect →
         ∃ t o ht he,
           PlanNode.then_ n = Some t ∧ PlanNode.otherwise_ n = Some o
           ∧ thenBody_ ex = Some ht ∧ elseBody_ ex = Some he
           ∧ models b' t ht ∧ models b' o he)
    ∧ (PlanNode.kind n = PlanNode.kLoop →
         ∃ l hl,
           PlanNode.body n = Some l ∧ loopBody_ ex = Some hl
           ∧ models b' l hl).
Proof.
  intros U Hrun Hn Hdeps.
  destruct (create_models _ _ _ _ n U Hrun Hn)
    as (h & Hh & (ex & Hex & _ & _ & _ & _ & Hctl & Hw & _) & _).
  exists h, ex. split_and!; try done.
  - intros Hsel. unfold has_controls in Hctl. rewrite Hdeps in Hctl.
    destruct Hctl as [Hctl _].
    destruct (Hctl Hsel) as [[t Ht] [o Ho]].
    destruct Hw as (_ & Hlt & Hle & _).
    unfold ctrl_then, ctrl_else in *.
    rewrite Hdeps, decide_True, Ht in Hlt by done.
    rewrite Hdeps, decide_True, Ho in Hle by done.
    destruct (thenBody_ ex) as [ht|]; [|done].
    destruct (elseBody_ ex) as [he|]; [|done].
    simpl in Hlt, Hle.
    pose proof (children_select n d t o Hdeps Hsel Ht Ho) as Hch.
    assert (reach root t) as Hrt.
    { eapply reach_trans; [exact Hn|]. apply reach_step.
      rewrite Hch. by left. }
    assert (reach root o) as Hro.
    { eapply reach_trans; [exact Hn|]. apply reach_step.
      rewrite Hch. right. by left. }
    destruct (create_models _ _ _ _ t U Hrun Hrt) as (ht' & Hht & Hmt & _).
    destruct (create_models _ _ _ _ o U Hrun Hro) as (he' & Hhe & Hmo & _).
    rewrite Hlt in Hht. injection Hht as <-.
    rewrite Hle in Hhe. injection Hhe as <-.
    by exists t, o, ht, he.
  - intros Hloop. unfold has_controls in Hctl. rewrite Hdeps in Hctl.
    destruct Hctl as [_ Hctl].
    destruct (Hctl Hloop) as [l Hl].
    destruct Hw as (_ & _ & _ & Hll).
    unfold ctrl_body in *.
    rewrite Hdeps, decide_False, decide_True, Hl in Hll
      by (done || (rewrite Hloop; discriminate)).
    destruct (loopBody_ ex) as [hl|]; [|done].
    simpl in Hll.
    pose proof (children_loop n d l Hdeps Hloop Hl) as Hch.
    assert (reach root l) as Hrl.
    { eapply reach_trans; [exact Hn|]. apply reach_step.
      rewrite Hch. by left. }
    destruct (create_models _ _ _ _ l U Hrun Hrl) as (hl' & Hhl & Hml & _).
    rewrite Hll in Hhl. injection Hhl as <-.
    by exists l, hl.
Qed.

(** C8. The constructor leaves the execution context with a slot for
    the output variable of the node and with every slot it had. A call
    of [makeExecutor] that returns has kept every slot with its value,
    and every executor that it has allocated has the slot of the output
    variable of its node. After [create] has returned for a plan with
    unique ids, the output variable of every node that the builder has
    come to has its slot. *)
Theorem output_slots_are_declared :
  (∀ cls node now q,
     exist (PlanNode.outputVar node) (Executor_new cls node now q).2 = true
     ∧ ectx q ⊆ ectx (Executor_new cls node now q).2)
  ∧ (∀ n b e b', makeExecutor n b = inr (e, b') →
       ectx (qctx b) ⊆ ectx (qctx b')
       ∧ ∀ h ex, (length (objPool (qctx b)) ≤ h)%nat →
           objPool (qctx b') !! h = Some ex →
           exist (PlanNode.outputVar (node_ ex)) (qctx b') = true)
  ∧ (∀ root q e b' n,
       unique_ids root → create root q = inr (e, b') → reach root n →
       exist (PlanNode.outputVar n) (qctx b') = true).
Proof.
  split_and!.
  - intros cls node now q. unfold Executor_new, exist. simpl.
    destruct (bool_decide (is_Some (ectx q !! PlanNode.outputVar node)))
      eqn:Hex; simpl.
    + by split.
    + apply bool_decide_eq_false in Hex. split.
      * apply bool_decide_eq_true. rewrite lookup_insert_eq. by eexists.
      * apply insert_subseteq. by apply eq_None_not_Some.
  - intros n b e b' Hrun.
    destruct (makeExecutor_slots (length (objPool (qctx b))) n b e b')
      as [Hs Hsub]; [|done|by split].
    intros h ex Hh Hex. apply lookup_lt_Some in Hex. lia.
  - intros root q e b' n U Hrun Hn.
    destruct (create_models _ _ _ _ n U Hrun Hn)
      as (h & _ & (ex & _ & _ & _ & _ & _ & _ & _ & Hslot) & _).
    unfold exist. apply bool_decide_eq_true. by apply elem_of_dom.
Qed.

(** ** Plans given explicitly *)

Lemma subnodes_self n : n ∈ subnodes n.
Proof. destruct n; simpl. by left. Qed.

Lemma subnodes_children n c m :
  c ∈ children n → m ∈ subnodes c → m ∈ subnodes n.
Proof.
  intros Hc Hm.
  assert (c ∈ PlanNode.dependencies n ∨ PlanNode.then_ n = Some c
          ∨ PlanNode.otherwise_ n = Some c ∨ PlanNode.body n = Some c)
    as Hsub.
  { unfold children in Hc.
    destruct (PlanNode.dependencies n) as [|d0 [|d1 [|d2 ds]]];
      try (by apply elem_of_nil in Hc).
    - destruct (decide _).
      + destruct (PlanNode.then_ n) as [t|], (PlanNode.otherwise_ n) as [o|];
          try (by apply elem_of_nil in Hc).
        * rewrite !elem_of_cons, elem_of_nil in Hc.
          destruct Hc as [->|[->|[->|[]]]]; auto. left. by left.
        * apply list_elem_of_singleton in Hc as ->. auto.
      + destruct (decide _).
        * destruct (PlanNode.body n) as [l|];
            try (by apply elem_of_nil in Hc).
          rewrite !elem_of_cons, elem_of_nil in Hc.
          destruct Hc as [->|[->|[]]]; auto. left. by left.
        * by left.
    - by left. }
  destruct n as [i k ds ov th ot bo]. simpl in *.
  right. rewrite !elem_of_app.
  destruct Hsub as [Hd | [-> | [-> | ->]]]; simpl; auto.
  left. apply list_elem_of_In, in_flat_map. exists c.
  split; by apply list_elem_of_In.
Qed.

Lemma reach_subnodes n m : reach n m → m ∈ subnodes n.
Proof.
  induction 1 as [n|n c m Hc _ IH]; [apply subnodes_self|].
  by eapply subnodes_children.
Qed.

(** To see that a plan has unique ids it is enough to compare the node
    occurrences below its root. *)
Lemma unique_ids_subnodes root :
  (∀ a b, a ∈ subnodes root → b ∈ subnodes root →
          PlanNode.id a = PlanNode.id b → a = b) →
  unique_ids root.
Proof.
  intros H a b Ha Hb. apply H; by apply reach_subnodes.
Qed.

(** ** What every call keeps *)

Lemma keeps_refl p0 b : keeps p0 b b.
Proof.
  unfold keeps. split_and!; try done.
  - intros h ex Hex. by exists ex.
  - intros name. by left.
Qed.

Lemma keeps_trans p0 b1 b2 b3 :
  keeps p0 b1 b2 → keeps p0 b2 b3 → keeps p0 b1 b3.
Proof.
  intros (Hv1 & Hl1 & Hp1 & Hn1 & Hf1 & Hr1 & He1)
         (Hv2 & Hl2 & Hp2 & Hn2 & Hf2 & Hr2 & He2).
  unfold keeps. split_and!.
  - by etrans.
  - lia.
  - intros h Hh. rewrite Hp2 by done. by apply Hp1.
  - intros h ex Hex. destruct (Hn1 h ex Hex) as (ex1 & Hex1 & Hnode1 & Hid1).
    destruct (Hn2 h ex1 Hex1) as (ex2 & Hex2 & Hnode2 & Hid2).
    exists ex2. split; [done|]. by rewrite Hnode2, Hid2.
  - by rewrite Hf2.
  - by rewrite Hr2.
  - intros name.
    destruct (He2 name) as [Heq2|(Hnone2 & Hnew2 & h & ex & Hh & Hex & Hvar)].
    + rewrite Heq2.
      destruct (He1 name)
        as [Heq1|(Hnone1 & Hnew1 & h & ex & Hh & Hex & Hvar)]; [by left|].
      right. split_and!; try done.
      destruct (Hn2 h ex Hex) as (ex' & Hex' & Hnode' & _).
      exists h, ex'. split_and!; try done. by rewrite Hnode'.
    + destruct (He1 name) as [Heq1|(_ & Hnew1 & _)].
      * right. split_and!; try done; [by rewrite <- Heq1|].
        exists h, ex. split_and!; try done. lia.
      * rewrite Hnew1 in Hnone2. discriminate.
Qed.

Lemma keeps_weaken p0 p1 b b' : (p0 ≤ p1)%nat → keeps p1 b b' → keeps p0 b b'.
Proof.
  intros Hle (Hv & Hl & Hp & Hn & Hf & Hr & He). unfold keeps.
  split_and!; try done. intros h Hh. apply Hp. lia.
Qed.

Lemma keeps_length p0 b b' :
  keeps p0 b b' →
  (length (objPool (qctx b)) ≤ length (objPool (qctx b')))%nat.
Proof. by intros (_ & Hl & _). Qed.

Lemma keeps_logged p0 ev b : keeps p0 b (logged ev b).
Proof.
  unfold keeps; simpl. split_and!; try done.
  - intros h ex Hex. by exists ex.
  - intros name. by left.
Qed.

Lemma keeps_visited_insert p0 i e b : keeps p0 b (visited_insert i e b).
Proof.
  unfold keeps; simpl. split_and!; try done.
  - destruct (visited b !! i) eqn:Hi; [done|]. by apply insert_subseteq.
  - intros h ex Hex. by exists ex.
  - intros name. by left.
Qed.

Lemma keeps_call p0 exec f b :
  (p0 ≤ exec)%nat →
  (∀ ex, id_ (f ex) = id_ ex ∧ node_ (f ex) = node_ ex
         ∧ class_ (f ex) = class_ ex) →
  keeps p0 b (call exec f b).
Proof.
  intros Hle Hf. unfold keeps; simpl. split_and!; try done.
  - by rewrite length_alter.
  - intros h Hh. apply list_lookup_alter_ne. lia.
  - intros h ex Hex. destruct (decide (exec = h)) as [->|Hne].
    + exists (f ex). rewrite list_lookup_alter_eq, Hex.
      by destruct (Hf ex) as (-> & -> & _).
    + exists ex. by rewrite list_lookup_alter_ne.
  - intros name. by left.
Qed.

(** The construction of an executor keeps everything but for the slot
    that it may add. *)
Lemma keeps_construct p0 n b e q :
  (p0 ≤ length (objPool (qctx b)))%nat →
  makeExecutorOfKind (qctx b) n = inr (e, q) →
  keeps p0 b (with_qctx q b)
  ∧ e = length (objPool (qctx b))
  ∧ length (objPool q) = S (length (objPool (qctx b)))
  ∧ ∃ ex, objPool q !! e = Some ex ∧ node_ ex = n
          ∧ id_ ex = PlanNode.id n.
Proof.
  intros Hle. unfold makeExecutorOfKind.
  destruct (executorClass (PlanNode.kind n)) as [cls|]; [|discriminate].
  unfold Executor_new, ObjectPool_add, exist; simpl.
  destruct (bool_decide (is_Some (ectx (qctx b) !! PlanNode.outputVar n)))
    eqn:Hex; simpl; intros [= <- <-]; simpl;
    (split_and!;
     [|done|rewrite length_app; simpl; lia
      |eexists; split; [apply list_lookup_middle; done|done]]);
    unfold keeps; simpl;
    (split_and!;
     [done|rewrite length_app; lia
      |intros h Hh; apply lookup_app_l; lia
      |intros h ex Hx; exists ex; split; [|done];
       rewrite lookup_app_l; [done|]; by eapply lookup_lt_Some
      |done|done|]).
  - intros name. by left.
  - apply bool_decide_eq_false in Hex. intros name.
    destruct (decide (name = PlanNode.outputVar n)) as [->|Hne].
    + right. rewrite lookup_insert_eq. split_and!; try done.
      { by apply eq_None_not_Some. }
      eexists _, _. split_and!; [done| |].
      * apply list_lookup_middle. done.
      * done.
    + left. by rewrite lookup_insert_ne.
Qed.

Lemma linked_keeps p0 n exec b bl :
  (∀ c, c ∈ children n → ∀ b e b',
     makeExecutor c b = inr (e, b') →
     keeps (length (objPool (qctx b))) b b') →
  linked n exec b bl →
  (p0 ≤ exec)%nat → (p0 ≤ length (objPool (qctx b)))%nat →
  keeps p0 b bl.
Proof.
  intros IH Hlink Hexec Hlen.
  assert (∀ c b e b', c ∈ children n →
            (p0 ≤ length (objPool (qctx b)))%nat →
            makeExecutor c b = inr (e, b') → keeps p0 b b') as IH'.
  { intros c b0 e0 b0' Hc Hle Hrun.
    eapply keeps_weaken; [exact Hle|]. by eapply IH. }
  clear IH.
  destruct Hlink as
    [Hdeps
    |d h b1 Hdeps Hns Hnl Hd
    |d t o ht b1 he b2 h b3 Hdeps Hsel Hth Hot Ht Ho Hd
    |d l hl b1 h b2 Hdeps Hloop Hbo Hl Hd
    |d0 d1 h0 b1 h1 b2 Hdeps H0 H1].
  - apply keeps_refl.
  - pose proof (children_unary n d Hdeps Hns Hnl) as Hch.
    assert (d ∈ children n) as Hcd by child_of Hch.
    eapply keeps_trans; [by eapply IH'|]. by apply keeps_call.
  - pose proof (children_select n d t o Hdeps Hsel Hth Hot) as Hch.
    assert (t ∈ children n) as Hct by child_of Hch.
    assert (o ∈ children n) as Hco by child_of Hch.
    assert (d ∈ children n) as Hcd by child_of Hch.
    pose proof (IH' t _ _ _ Hct Hlen Ht) as K1.
    pose proof (keeps_length _ _ _ K1) as L1.
    assert (p0 ≤ length (objPool (qctx b1)))%nat as L1' by lia.
    pose proof (IH' o _ _ _ Hco L1' Ho) as K2.
    pose proof (keeps_length _ _ _ K2) as L2.
    assert (p0 ≤ length (objPool (qctx
              (call exec (setElseBody he)
                 (call exec (setThenBody ht) b2)))))%nat as L3.
    { simpl. rewrite !length_alter. lia. }
    pose proof (IH' d _ _ _ Hcd L3 Hd) as K3.
    eapply keeps_trans; [exact K1|]. eapply keeps_trans; [exact K2|].
    eapply keeps_trans; [by apply (keeps_call p0 exec (setThenBody ht))|].
    eapply keeps_trans; [by apply (keeps_call p0 exec (setElseBody he))|].
    eapply keeps_trans; [exact K3|]. by apply keeps_call.
  - pose proof (children_loop n d l Hdeps Hloop Hbo) as Hch.
    assert (l ∈ children n) as Hcl by child_of Hch.
    assert (d ∈ children n) as Hcd by child_of Hch.
    pose proof (IH' l _ _ _ Hcl Hlen Hl) as K1.
    pose proof (keeps_length _ _ _ K1) as L1.
    assert (p0 ≤ length (objPool (qctx
              (call exec (setLoopBody hl) b1))))%nat as L2.
    { simpl. rewrite !length_alter. lia. }
    pose proof (IH' d _ _ _ Hcd L2 Hd) as K2.
    eapply keeps_trans; [exact K1|].
    eapply keeps_trans; [by apply (keeps_call p0 exec (setLoopBody hl))|].
    eapply keeps_trans; [exact K2|]. by apply keeps_call.
  - pose proof (children_binary n d0 d1 Hdeps) as Hch.
    assert (d0 ∈ children n) as Hc0 by child_of Hch.
    assert (d1 ∈ children n) as Hc1 by child_of Hch.
    pose proof (IH' d0 _ _ _ Hc0 Hlen H0) as K1.
    pose proof (keeps_length _ _ _ K1) as L1.
    assert (p0 ≤ length (objPool (qctx b1)))%nat as L1' by lia.
    pose proof (IH' d1 _ _ _ Hc1 L1' H1) as K2.
    eapply keeps_trans; [exact K1|]. eapply keeps_trans; [exact K2|].
    eapply keeps_trans; [by apply (keeps_call p0 exec (dependsOn h0))|].
    by apply keeps_call.
Qed.

Lemma makeExecutor_keeps n :
  ∀ b e b', makeExecutor n b = inr (e, b') →
  keeps (length (objPool (qctx b))) b b'.
Proof.
  induction n as [n IH] using plan_ind. intros b e b' Hrun.
  destruct (visited b !! PlanNode.id n) as [e0|] eqn:Hv.
  { rewrite (makeExecutor_hit _ _ _ Hv) in Hrun. injection Hrun as <- <-.
    eapply keeps_trans; apply keeps_logged. }
  apply makeExecutor_miss in Hrun as (q & bl & Hk & Hlink & ->); [|done].
  set (p0 := length (objPool (qctx b))).
  destruct (keeps_construct p0 n (logged (EvCall (PlanNode.id n) (visited b)) b) e q)
    as (K1 & He & Hlen & _); [done|exact Hk|].
  apply (linked_keeps p0) in Hlink; [|exact IH|..].
  - eapply keeps_trans; [apply keeps_logged|].
    eapply keeps_trans; [exact K1|].
    eapply keeps_trans; [apply keeps_logged|].
    eapply keeps_trans; [exact Hlink|].
    eapply keeps_trans; [apply keeps_visited_insert|apply keeps_logged].
  - rewrite He. done.
  - simpl. rewrite Hlen. simpl. unfold p0. lia.
Qed.


(** X2. A call of [makeExecutor] that returns publishes no result: a
    slot that was there keeps its content, and a slot that was not there
    and is there afterwards is empty and is the slot of the output
    variable of an executor that the call has allocated. *)
Theorem makeExecutor_declares_empty_slots n b e b' name :
  makeExecutor n b = inr (e, b') →
  (ectx (qctx b) !! name ≠ None →
     ectx (qctx b') !! name = ectx (qctx b) !! name)
  ∧ (ectx (qctx b) !! name = None →
     ectx (qctx b') !! name ≠ None →
     ectx (qctx b') !! name = Some None
     ∧ ∃ h ex, (length (objPool (qctx b)) ≤ h)%nat
               ∧ objPool (qctx b') !! h = Some ex
               ∧ PlanNode.outputVar (node_ ex) = name).
Proof.
  intros Hrun.
  destruct (makeExecutor_keeps n b e b' Hrun) as (_ & _ & _ & _ & _ & _ & He).
  destruct (He name) as [Heq|(Hnone & Hnew & Hown)].
  - split; [done|]. intros Hnone Hsome. by rewrite Heq in Hsome.
  - split; [by intros ?|]. done.
Qed.

(** ** No pointer dangles *)

Lemma points_to_dependsOn dep ex d :
  points_to (dependsOn dep ex) d → points_to ex d ∨ d = dep.
Proof.
  unfold points_to; simpl. rewrite elem_of_app, list_elem_of_singleton.
  tauto.
Qed.

Lemma points_to_setThenBody h ex d :
  points_to (setThenBody h ex) d → points_to ex d ∨ d = h.
Proof. unfold points_to; simpl. intros [?|[[= ->]|[?|?]]]; tauto. Qed.

Lemma points_to_setElseBody h ex d :
  points_to (setElseBody h ex) d → points_to ex d ∨ d = h.
Proof. unfold points_to; simpl. intros [?|[?|[[= ->]|?]]]; tauto. Qed.

Lemma points_to_setLoopBody h ex d :
  points_to (setLoopBody h ex) d → points_to ex d ∨ d = h.
Proof. unfold points_to; simpl. intros [?|[?|[?|[= ->]]]]; tauto. Qed.

Lemma refs_ok_logged p0 ev b : refs_ok p0 b → refs_ok p0 (logged ev b).
Proof. done. Qed.

Lemma refs_ok_visited_insert p0 i e b ex :
  objPool (qctx b) !! e = Some ex → id_ ex = i →
  refs_ok p0 b → refs_ok p0 (visited_insert i e b).
Proof.
  intros Hex Hid [Hm Hp]. split; [|done]. simpl.
  destruct (visited b !! i) eqn:Hi; [done|].
  intros j h. destruct (decide (i = j)) as [->|Hne].
  - rewrite lookup_insert_eq. intros [= <-]. by exists ex.
  - rewrite lookup_insert_ne by done. apply Hm.
Qed.

Lemma refs_ok_construct p0 n b e q :
  refs_ok p0 b → makeExecutorOfKind (qctx b) n = inr (e, q) →
  refs_ok p0 (with_qctx q b).
Proof.
  intros [Hm Hp] Hk.
  pose proof Hk as Hk'.
  apply makeExecutorOfKind_inr in Hk' as (cls & Hcls & -> & Hpool & _).
  split; simpl.
  - intros i h Hi. destruct (Hm i h Hi) as (ex & Hex & Hid).
    exists ex. split; [|done]. rewrite Hpool.
    rewrite lookup_app_l; [done|]. by eapply lookup_lt_Some.
  - intros h ex Hh. rewrite Hpool, length_app. simpl.
    destruct (decide (h < length (objPool (qctx b)))%nat) as [Hlt|Hge].
    + rewrite lookup_app_l by done. intros Hex.
      destruct (Hp h ex Hh Hex) as (Hid & Hc & Hpts).
      split_and!; try done. intros d Hd. specialize (Hpts d Hd). lia.
    + intros Hex. pose proof (lookup_lt_Some _ _ _ Hex) as Hlt.
      rewrite length_app in Hlt. simpl in Hlt.
      assert (h = length (objPool (qctx b))) as -> by lia.
      rewrite list_lookup_middle in Hex by done. injection Hex as <-.
      simpl. split_and!; try done.
      unfold points_to; simpl. intros d [Hd|[[=]|[[=]|[=]]]].
      by apply elem_of_nil in Hd.
Qed.

Lemma refs_ok_call p0 exec f b :
  refs_ok p0 b →
  (∀ ex, id_ (f ex) = id_ ex ∧ node_ (f ex) = node_ ex
         ∧ class_ (f ex) = class_ ex) →
  (∀ ex d, points_to (f ex) d →
           points_to ex d ∨ (d < length (objPool (qctx b)))%nat) →
  refs_ok p0 (call exec f b).
Proof.
  intros [Hm Hp] Hf Hpts. split; simpl.
  - intros i h Hi. destruct (Hm i h Hi) as (ex & Hex & Hid).
    destruct (decide (exec = h)) as [->|Hne].
    + exists (f ex). rewrite list_lookup_alter_eq, Hex.
      split; [done|]. by destruct (Hf ex) as (-> & _).
    + exists ex. by rewrite list_lookup_alter_ne.
  - intros h ex' Hh. rewrite length_alter.
    destruct (decide (exec = h)) as [->|Hne].
    + rewrite list_lookup_alter_eq.
      destruct (objPool (qctx b) !! h) as [ex|] eqn:Hex; [|done].
      simpl. intros [= <-].
      destruct (Hp h ex Hh Hex) as (Hid & Hc & Hold).
      destruct (Hf ex) as (Hf1 & Hf2 & Hf3).
      rewrite Hf1, Hf2, Hf3. split_and!; try done.
      intros d Hd. destruct (Hpts ex d Hd) as [Hd'|Hd']; [|done].
      by apply Hold.
    + rewrite list_lookup_alter_ne by done. apply Hp. done.
Qed.

(** [exec->f(h)] for a setter [f] and a valid pointer [h]. *)
Lemma refs_ok_set p0 exec f h b :
  refs_ok p0 b → (h < length (objPool (qctx b)))%nat →
  (∀ ex, id_ (f ex) = id_ ex ∧ node_ (f ex) = node_ ex
         ∧ class_ (f ex) = class_ ex) →
  (∀ ex d, points_to (f ex) d → points_to ex d ∨ d = h) →
  refs_ok p0 (call exec f b).
Proof.
  intros Hok Hh Hf Hpts. apply refs_ok_call; [done|done|].
  intros ex d Hd. destruct (Hpts ex d Hd) as [?| ->]; auto.
Qed.

Lemma linked_refs p0 n exec b bl :
  (∀ c, c ∈ children n → ∀ b e b',
     refs_ok p0 b → makeExecutor c b = inr (e, b') →
     refs_ok p0 b' ∧ (e < length (objPool (qctx b')))%nat) →
  linked n exec b bl → refs_ok p0 b → refs_ok p0 bl.
Proof.
  intros IH Hlink Hok.
  destruct Hlink as
    [Hdeps
    |d h b1 Hdeps Hns Hnl Hd
    |d t o ht b1 he b2 h b3 Hdeps Hsel Hth Hot Ht Ho Hd
    |d l hl b1 h b2 Hdeps Hloop Hbo Hl Hd
    |d0 d1 h0 b1 h1 b2 Hdeps H0 H1].
  - done.
  - pose proof (children_unary n d Hdeps Hns Hnl) as Hch.
    assert (d ∈ children n) as Hcd by child_of Hch.
    destruct (IH d Hcd _ _ _ Hok Hd) as [Hok1 Hv1].
    apply (refs_ok_set p0 exec (dependsOn h) h);
      [done|done|apply dependsOn_keeps|apply points_to_dependsOn].
  - pose proof (children_select n d t o Hdeps Hsel Hth Hot) as Hch.
    assert (t ∈ children n) as Hct by child_of Hch.
    assert (o ∈ children n) as Hco by child_of Hch.
    assert (d ∈ children n) as Hcd by child_of Hch.
    destruct (IH t Hct _ _ _ Hok Ht) as [Hok1 Hv1].
    destruct (IH o Hco _ _ _ Hok1 Ho) as [Hok2 Hv2].
    pose proof (keeps_length _ _ _ (makeExecutor_keeps o _ _ _ Ho)) as L2.
    assert (refs_ok p0 (call exec (setThenBody ht) b2)) as Hok3.
    { apply (refs_ok_set p0 exec (setThenBody ht) ht);
        [done|lia|apply setThenBody_keeps|apply points_to_setThenBody]. }
    assert (refs_ok p0 (call exec (setElseBody he)
                          (call exec (setThenBody ht) b2))) as Hok4.
    { apply (refs_ok_set p0 exec (setElseBody he) he);
        [done|simpl; by rewrite length_alter
        |apply setElseBody_keeps|apply points_to_setElseBody]. }
    destruct (IH d Hcd _ _ _ Hok4 Hd) as [Hok5 Hv5].
    apply (refs_ok_set p0 exec (dependsOn h) h);
      [done|done|apply dependsOn_keeps|apply points_to_dependsOn].
  - pose proof (children_loop n d l Hdeps Hloop Hbo) as Hch.
    assert (l ∈ children n) as Hcl by child_of Hch.
    assert (d ∈ children n) as Hcd by child_of Hch.
    destruct (IH l Hcl _ _ _ Hok Hl) as [Hok1 Hv1].
    assert (refs_ok p0 (call exec (setLoopBody hl) b1)) as Hok2.
    { apply (refs_ok_set p0 exec (setLoopBody hl) hl);
        [done|done|apply setLoopBody_keeps|apply points_to_setLoopBody]. }
    destruct (IH d Hcd _ _ _ Hok2 Hd) as [Hok3 Hv3].
    apply (refs_ok_set p0 exec (dependsOn h) h);
      [done|done|apply dependsOn_keeps|apply points_to_dependsOn].
  - pose proof (children_binary n d0 d1 Hdeps) as Hch.
    assert (d0 ∈ children n) as Hc0 by child_of Hch.
    assert (d1 ∈ children n) as Hc1 by child_of Hch.
    destruct (IH d0 Hc0 _ _ _ Hok H0) as [Hok1 Hv1].
    destruct (IH d1 Hc1 _ _ _ Hok1 H1) as [Hok2 Hv2].
    pose proof (keeps_length _ _ _ (makeExecutor_keeps d1 _ _ _ H1)) as L2.
    assert (refs_ok p0 (call exec (dependsOn h0) b2)) as Hok3.
    { apply (refs_ok_set p0 exec (dependsOn h0) h0);
        [done|lia|apply dependsOn_keeps|apply points_to_dependsOn]. }
    apply (refs_ok_set p0 exec (dependsOn h1) h1);
      [done|simpl; by rewrite length_alter
      |apply dependsOn_keeps|apply points_to_dependsOn].
Qed.

(** Every call that returns keeps [refs_ok] and returns an executor of
    the pool that has the id of the node. *)
Lemma makeExecutor_refs p0 n :
  ∀ b e b', refs_ok p0 b → makeExecutor n b = inr (e, b') →
  refs_ok p0 b'
  ∧ ∃ ex, objPool (qctx b') !! e = Some ex ∧ id_ ex = PlanNode.id n.
Proof.
  induction n as [n IH] using plan_ind. intros b e b' Hok Hrun.
  destruct (visited b !! PlanNode.id n) as [e0|] eqn:Hv.
  { rewrite (makeExecutor_hit _ _ _ Hv) in Hrun. injection Hrun as <- <-.
    split; [done|]. destruct Hok as [Hm _]. by apply Hm. }
  apply makeExecutor_miss in Hrun as (q & bl & Hk & Hlink & ->); [|done].
  pose proof (refs_ok_construct p0 n _ e q
                (refs_ok_logged p0 (EvCall (PlanNode.id n) (visited b)) b Hok) Hk)
    as Hok1.
  destruct (keeps_construct 0 n (logged (EvCall (PlanNode.id n) (visited b)) b) e q)
    as (_ & He & Hlen & ex0 & Hex0 & Hnode0 & Hid0); [lia|exact Hk|].
  assert (keeps 0
            (logged (EvConstruct (PlanNode.id n) e)
               (with_qctx q (logged (EvCall (PlanNode.id n) (visited b)) b))) bl)
    as Hkeep.
  { eapply linked_keeps; [|exact Hlink|lia|lia].
    intros c _. apply makeExecutor_keeps. }
  apply (linked_refs p0) in Hlink; [| |by apply refs_ok_logged].
  - destruct Hkeep as (_ & _ & _ & Hstable & _).
    destruct (Hstable e ex0 Hex0) as (ex' & Hex' & _ & Hid').
    assert (id_ ex' = PlanNode.id n) as Hidn by (by rewrite Hid').
    split.
    + apply refs_ok_logged. by eapply refs_ok_visited_insert.
    + by exists ex'.
  - intros c Hc b0 e0 b0' Hok0 Hrun0.
    destruct (IH c Hc b0 e0 b0' Hok0 Hrun0) as (Hok' & ex & Hex & _).
    split; [done|]. by eapply lookup_lt_Some.
Qed.

Lemma refs_ok_start p0 q :
  (length (objPool q) ≤ p0)%nat →
  refs_ok p0 {| qctx := q; visited := ∅; events := [] |}.
Proof.
  intros Hle. split; simpl.
  - intros i h Hi. by rewrite lookup_empty in Hi.
  - intros h ex Hh Hex. apply lookup_lt_Some in Hex. lia.
Qed.

(** X3. Whatever the ids of the plan, after [create] has returned no
    pointer dangles: the executor returned, the executors of the memo
    map, and the predecessors and bodies of every executor that the
    build has allocated are executors of the pool. *)
Theorem create_leaves_no_dangling_pointer root q e b' :
  create root q = inr (e, b') →
  (e < length (objPool (qctx b')))%nat
  ∧ (∀ i h, visited b' !! i = Some h →
       (h < length (objPool (qctx b')))%nat)
  ∧ (∀ h ex d, (length (objPool q) ≤ h)%nat →
       objPool (qctx b') !! h = Some ex → points_to ex d →
       (d < length (objPool (qctx b')))%nat).
Proof.
  intros Hrun.
  destruct (makeExecutor_refs (length (objPool q)) root _ e b'
              (refs_ok_start _ q (Nat.le_refl _)) Hrun)
    as ([Hm Hp] & ex & Hex & _).
  split_and!.
  - by eapply lookup_lt_Some.
  - intros i h Hi. destruct (Hm i h Hi) as (ex' & Hex' & _).
    by eapply lookup_lt_Some.
  - intros h ex' d Hh Hex' Hd.
    destruct (Hp h ex' Hh Hex') as (_ & _ & Hpts). by apply Hpts.
Qed.

(** X4. Whatever the ids of the plan, after [create] has returned every
    executor that the build has allocated has the id of its plan node
    and the class that the dispatch gives for the kind of its plan node;
    the executor returned has the id of the root, and the memo map sends
    an id to an executor with that id. *)
Theorem create_executors_mirror_their_nodes root q e b' :
  create root q = inr (e, b') →
  (∃ ex, objPool (qctx b') !! e = Some ex ∧ id_ ex = PlanNode.id root)
  ∧ (∀ i h, visited b' !! i = Some h →
       ∃ ex, objPool (qctx b') !! h = Some ex ∧ id_ ex = i)
  ∧ (∀ h ex, (length (objPool q) ≤ h)%nat →
       objPool (qctx b') !! h = Some ex →
       id_ ex = PlanNode.id (node_ ex)
       ∧ executorClass (PlanNode.kind (node_ ex)) = Some (class_ ex)).
Proof.
  intros Hrun.
  destruct (makeExecutor_refs (length (objPool q)) root _ e b'
              (refs_ok_start _ q (Nat.le_refl _)) Hrun)
    as ([Hm Hp] & Hroot).
  split_and!; try done.
  intros h ex Hh Hex. destruct (Hp h ex Hh Hex) as (Hid & Hcls & _).
  done.
Qed.

(** X5. For a plan with unique ids, after [create] has returned the memo
    map holds exactly the ids of the nodes that the builder has come to,
    and the pool has grown by exactly one executor per memoized id. *)
Theorem create_allocates_one_executor_per_id root q e b' :
  unique_ids root → create root q = inr (e, b') →
  (∀ i, is_Some (visited b' !! i) ↔ ∃ n, reach root n ∧ PlanNode.id n = i)
  ∧ length (objPool (qctx b'))
    = (length (objPool q) + base.size (visited b'))%nat.
Proof.
  intros U Hrun.
  destruct (create_sound _ _ _ _ U Hrun)
    as ([Hm Hr] & Hext & Hroot & Hcov & Hdom & Hnew).
  destruct Hext as (_ & Hlen & _ & _ & Hnv). simpl in Hlen, Hnv, Hnew, Hdom.
  split.
  - intros i. split.
    + intros Hi. destruct (Hdom i Hi) as [[? Hi']|Hi']; [|done].
      by rewrite lookup_empty in Hi'.
    + intros (n & Hn & <-). by apply Hcov.
  - set (p0 := length (objPool q)) in *.
    set (ids := id_ <$> drop p0 (objPool (qctx b'))).
    assert (∀ k x, ids !! k = Some x → visited b' !! x = Some (p0 + k)%nat)
      as Hids.
    { intros k x Hk. unfold ids in Hk. rewrite list_lookup_fmap in Hk.
      destruct (drop p0 (objPool (qctx b')) !! k) as [ex|] eqn:Hex;
        [|done].
      injection Hk as <-. rewrite lookup_drop in Hex.
      destruct (Hnew (p0 + k)%nat ex ltac:(lia) Hex) as [Hv _]. done. }
    assert (NoDup ids) as Hnd.
    { apply NoDup_alt. intros k1 k2 x H1 H2.
      apply Hids in H1, H2. rewrite H1 in H2. injection H2. lia. }
    assert (dom (visited b') = list_to_set ids) as Hset.
    { apply set_eq. intros x. rewrite elem_of_dom, elem_of_list_to_set.
      split.
      - intros [h Hh].
        destruct (Hnv x h Hh) as [Hold|Hge];
          [by rewrite lookup_empty in Hold|].
        destruct (Hm x h Hh) as (n & _ & Hidn & (ex & Hex & Hid & _) & _).
        apply list_elem_of_lookup. exists (h - p0)%nat.
        unfold ids. rewrite list_lookup_fmap, lookup_drop.
        replace (p0 + (h - p0))%nat with h by lia.
        rewrite Hex. simpl. by rewrite Hid, Hidn.
      - intros Hx. apply list_elem_of_lookup in Hx as [k Hk].
        apply Hids in Hk. by eexists. }
    rewrite <- size_dom, Hset, size_list_to_set by done.
    unfold ids. rewrite length_fmap, length_drop. lia.
Qed.

(** X6. Once [create] has returned for a plan with unique ids, a further
    call of [makeExecutor] for any node of the plan, with the memo map of
    the build, returns the executor of the node and changes neither the
    query context nor the memo map. *)
Theorem makeExecutor_again_allocates_nothing root q e b' n :
  unique_ids root → create root q = inr (e, b') → reach root n →
  ∃ h b'',
    makeExecutor n b' = inr (h, b'')
    ∧ models b' n h
    ∧ qctx b'' = qctx b' ∧ visited b'' = visited b'.
Proof.
  intros U Hrun Hn.
  destruct (create_models _ _ _ _ n U Hrun Hn) as (h & Hh & Hmod & _).
  eexists h, _. split; [by apply makeExecutor_hit|]. done.
Qed.

(** X7. For a plan with unique ids, [create] returns an executor exactly
    when every node that the builder can come to has a kind of the
    dispatch, at most two dependencies, and, for a branch or a loop with
    one dependency, its control children. *)
Theorem create_returns_iff_plan_is_supported root q :
  unique_ids root →
  (∃ e b', create root q = inr (e, b'))
  ↔ ∀ m, reach root m → supported m ∧ has_controls m.
Proof.
  intros U. split.
  - intros (e & b' & Hrun) m Hm.
    destruct (create_models _ _ _ _ m U Hrun Hm)
      as (h & _ & (ex & _ & _ & _ & Hcls & Hlen & Hctl & _) & _).
    split; [|done]. split; [by rewrite Hcls|done].
  - intros Hall.
    destruct (create root q) as [a|[e b']] eqn:Hrun; [|by eauto].
    apply makeExecutor_abort in Hrun
      as (m & Hm & [[-> Hk]|[[-> Hlen]|[-> Hctl]]]).
    + by destruct (Hall m Hm) as [[? _] _].
    + destruct (Hall m Hm) as [[_ ?] _]. lia.
    + by destruct (Hall m Hm) as [_ ?].
Qed.

(** X8. The kind dispatch gives different classes for different kinds,
    and gives no class for [kUnknown] only. *)
Theorem kind_dispatch_is_one_to_one k1 k2 :
  (executorClass k1 = None ↔ k1 = PlanNode.kUnknown)
  ∧ (executorClass k1 = executorClass k2 → k1 = k2).
Proof.
  split.
  - destruct k1; simpl; split; intros H;
      first [reflexivity | discriminate H].
  - destruct k1; simpl; destruct k2; simpl; intros H;
      first [reflexivity | discriminate H].
Qed.

(** ** Runs of one executor *)

(** X9. When an executor is opened at [now], finishes with [result] and
    is closed at [later], the record that [close] adds for its node
    reports the size of [result] as the row count and [later - now] as
    the total duration, and the result is in the slot of the output
    variable. *)
Theorem run_reports_rows_and_duration (now later : Z) (result : Result)
    (this : Executor) (q : QueryContext) :
  let this1 := (open now this).1 in
  let '(this2, q2, _) := finish result this1 q in
  let '(q3, status) := close later this2 q2 in
  status = StatusOK
  ∧ (∃ stats,
       profiling q3 !! PlanNode.id (node_ this)
       = Some (default [] (profiling q !! PlanNode.id (node_ this))
                 ++ [stats])
       ∧ rows stats = Result_size result
       ∧ total_duration_in_us stats = later - now)
  ∧ ectx q3 !! PlanNode.outputVar (node_ this) = Some (Some result).
Proof.
  unfold open, finish, close, addProfilingData, setResult, elapsedInUSec;
    simpl.
  split_and!; [done| |apply lookup_insert_eq].
  eexists. split; [apply lookup_insert_eq|]. done.
Qed.

(** X10. Opening an executor again after it has finished drops the row
    count of the finished run: the [close] that follows reports no rows,
    no execution time and the time since the second [open]; the result
    stays in the slot. *)
Theorem reopen_drops_the_row_count (now later : Z) (result : Result)
    (this : Executor) (q : QueryContext) :
  let '(this1, q1, _) := finish result this q in
  let this2 := (open now this1).1 in
  let '(q2, _) := close later this2 q1 in
  profiling q2 !! PlanNode.id (node_ this)
  = Some (default [] (profiling q !! PlanNode.id (node_ this))
            ++ [{| total_duration_in_us := later - now;
                   rows := 0;
                   exec_duration_in_us := 0 |}])
  ∧ ectx q2 !! PlanNode.outputVar (node_ this) = Some (Some result).
Proof.
  unfold open, finish, close, addProfilingData, setResult, elapsedInUSec;
    simpl.
  split; apply lookup_insert_eq.
Qed.

(** X11. After a call of [makeExecutor] has returned, [finish] by any
    executor that the call has allocated adds no slot to the execution
    context: it writes into the slot that the constructor has declared. *)
Theorem finish_adds_no_slot_after_build n b e b' h ex (result : Result) :
  makeExecutor n b = inr (e, b') →
  (length (objPool (qctx b)) ≤ h)%nat →
  objPool (qctx b') !! h = Some ex →
  dom (ectx (finish result ex (qctx b')).1.2) = dom (ectx (qctx b'))
  ∧ ∀ name, name ≠ PlanNode.outputVar (node_ ex) →
      ectx (finish result ex (qctx b')).1.2 !! name
      = ectx (qctx b') !! name.
Proof.
  intros Hrun Hh Hex.
  destruct (makeExecutor_slots (length (objPool (qctx b))) n b e b')
    as [Hs _]; [|done|].
  { intros k exk Hk Hexk. apply lookup_lt_Some in Hexk. lia. }
  specialize (Hs h ex Hh Hex). unfold exist in Hs.
  apply bool_decide_eq_true, elem_of_dom in Hs.
  unfold finish, setResult; simpl. split.
  - rewrite dom_insert_L. apply subseteq_union_1_L.
    by apply singleton_subseteq_l.
  - intros name Hne. by apply lookup_insert_ne.
Qed.

End Executor.

(** ** The example plans, built with integers for values *)

Lemma diamond_unique_ids : unique_ids diamond.
Proof.
  apply unique_ids_subnodes. intros a b Ha Hb.
  simpl in Ha, Hb. rewrite !elem_of_cons, elem_of_nil in Ha, Hb.
  destruct Ha as [->|[->|[->|[->|[->|[]]]]]];
    destruct Hb as [->|[->|[->|[->|[->|[]]]]]]; intros Hid;
    first [reflexivity | discriminate Hid].
Qed.

Lemma branch_unique_ids : unique_ids branch.
Proof.
  apply unique_ids_subnodes. intros a b Ha Hb.
  simpl in Ha, Hb. rewrite !elem_of_cons, elem_of_nil in Ha, Hb.
  destruct Ha as [->|[->|[->|[->|[]]]]];
    destruct Hb as [->|[->|[->|[->|[]]]]]; intros Hid;
    first [reflexivity | discriminate Hid].
Qed.

(** The diamond is built with one executor for the node below both
    inputs of the union. *)
Lemma create_one_executor_per_node_witness :
  ∃ e (b' : @Build Z),
    unique_ids diamond
    ∧ create (Value := Z) (λ _, 0) diamond freshContext = inr (e, b')
    ∧ ∃ h, visited b' !! PlanNode.id shared = Some h
           ∧ ∀ h' ex, objPool (qctx b') !! h' = Some ex →
                      id_ ex = PlanNode.id shared → h' = h.
Proof.
  destruct (create (Value := Z) (λ _, 0) diamond freshContext)
    as [a|[e b']] eqn:Hrun.
  { vm_compute in Hrun. discriminate Hrun. }
  exists e, b'. split; [exact diamond_unique_ids|]. split; [reflexivity|].
  destruct (create_one_executor_per_node (λ _, 0) diamond freshContext e b'
              diamond_unique_ids Hrun) as (Hone & _).
  destruct (Hone shared) as (h0 & Hh0 & _ & _ & Huniq & _).
  { eapply reach_child; [by left|]. eapply reach_child; [by left|].
    constructor. }
  exists h0. split; [exact Hh0|].
  intros h' ex Hex Hid. eapply Huniq; [simpl; lia|exact Hex|exact Hid].
Defined.

(** C2 fails on the chain [chain -> shared]: the executor of [chain] is
    not in the memo map when the call for its dependency is made (that
    call finds the empty map); no insertion of it comes before that call
    in the log. *)
Lemma insert_before_recursion_fails_on_chain :
  ∃ e (b' : @Build Z),
    create (Value := Z) (λ _, 0) chain freshContext = inr (e, b')
    ∧ shared ∈ children chain
    ∧ events b'
      = [EvCall (PlanNode.id chain) ∅; EvConstruct (PlanNode.id chain) e;
         EvCall (PlanNode.id shared) ∅; EvConstruct (PlanNode.id shared) 1%nat;
         EvInsert (PlanNode.id shared) 1%nat;
         EvReturn (PlanNode.id shared) 1%nat;
         EvInsert (PlanNode.id chain) e; EvReturn (PlanNode.id chain) e]
    ∧ precedes (EvInsert (PlanNode.id chain) e)
        (EvCall (PlanNode.id shared) ∅) (events b') = false
    ∧ precedes (EvCall (PlanNode.id shared) ∅)
        (EvInsert (PlanNode.id chain) e) (events b') = true.
Proof.
  eexists _, _. split; [vm_compute; reflexivity|].
  split; [by left|]. split; [vm_compute; reflexivity|].
  split; vm_compute; reflexivity.
Qed.

Lemma chain_unique_ids : unique_ids chain.
Proof.
  apply unique_ids_subnodes. intros a b Ha Hb.
  simpl in Ha, Hb. rewrite !elem_of_cons, elem_of_nil in Ha, Hb.
  destruct Ha as [-> | [-> | []]]; destruct Hb as [-> | [-> | []]];
    intros Hid; first [reflexivity | discriminate Hid].
Qed.

(** The chain, built from the empty memo map: the call for the dependency
    finds a memo map without the id of [chain], and the final map has the
    executor of [chain] under that id. *)
Lemma memo_insert_follows_recursion_witness :
  ∃ e (b' : @Build Z),
    visited {| qctx := freshContext (Value := Z); visited := ∅; events := [] |}
      !! PlanNode.id chain = None
    ∧ (∀ c m, c ∈ children chain → reach c m →
              PlanNode.id m ≠ PlanNode.id chain)
    ∧ makeExecutor (λ _, 0) chain
        {| qctx := freshContext; visited := ∅; events := [] |} = inr (e, b')
    ∧ visited b' !! PlanNode.id chain = Some e
    ∧ ∃ h v, EvCall (PlanNode.id shared) v ∈ events b'
             ∧ v !! PlanNode.id chain = None
             ∧ EvReturn (PlanNode.id shared) h ∈ events b'.
Proof.
  destruct (makeExecutor (Value := Z) (λ _, 0) chain
              {| qctx := freshContext; visited := ∅; events := [] |})
    as [a|[e b']] eqn:Hrun.
  { vm_compute in Hrun. discriminate Hrun. }
  exists e, b'. split; [apply lookup_empty|].
  split; [exact (λ c m, children_fresh_id chain chain c m chain_unique_ids
                          (reach_here chain))|].
  split; [reflexivity|].
  destruct (memo_insert_follows_recursion (λ _, 0) chain
              {| qctx := freshContext; visited := ∅; events := [] |} e b'
              (lookup_empty _)
              (λ c m, children_fresh_id chain chain c m chain_unique_ids
                        (reach_here chain))
              Hrun)
    as (mid & Hev & _ & _ & Hmemo & Hch).
  split; [exact Hmemo|].
  destruct (Hch shared) as (h & v & Hcall & Hv & Hret & _); [by left|].
  exists h, v. rewrite Hev. simpl.
  split_and!; [|exact Hv|].
  - do 2 right. apply elem_of_app. by left.
  - do 2 right. apply elem_of_app. by left.
Defined.

(** The node with three dependencies stops the build at the second
    [LOG(FATAL)]. *)
Lemma build_aborts_on_unsupported_nodes_witness :
  visited {| qctx := freshContext (Value := Z); visited := ∅; events := [] |}
    !! PlanNode.id ternary = None
  ∧ executorClass (PlanNode.kind ternary) ≠ None
  ∧ (2 < length (PlanNode.dependencies ternary))%nat
  ∧ create (Value := Z) (λ _, 0) ternary freshContext
    = inl (FatalUnsupportedDependencies 3).
Proof.
  split; [apply lookup_empty|]. split; [discriminate|]. split; [simpl; lia|].
  apply (build_aborts_on_unsupported_nodes (λ _, 0) ternary freshContext
           ternary {| qctx := freshContext; visited := ∅; events := [] |}).
  - apply lookup_empty.
  - discriminate.
  - simpl. lia.
Defined.

(** Both alternatives of [branch] are built and attached to its
    executor. *)
Lemma control_children_are_attached_witness :
  ∃ e (b' : @Build Z),
    unique_ids branch
    ∧ create (Value := Z) (λ _, 0) branch freshContext = inr (e, b')
    ∧ reach branch branch
    ∧ PlanNode.dependencies branch = [shared]
    ∧ ∃ h ex ht he,
        visited b' !! PlanNode.id branch = Some h
        ∧ objPool (qctx b') !! h = Some ex
        ∧ thenBody_ ex = Some ht ∧ elseBody_ ex = Some he.
Proof.
  destruct (create (Value := Z) (λ _, 0) branch freshContext)
    as [a|[e b']] eqn:Hrun.
  { vm_compute in Hrun. discriminate Hrun. }
  exists e, b'. split; [exact branch_unique_ids|]. split; [reflexivity|].
  split; [constructor|]. split; [reflexivity|].
  destruct (control_children_are_attached (λ _, 0) branch freshContext e b'
              branch shared branch_unique_ids Hrun (reach_here branch) eq_refl)
    as (h & ex & Hh & Hex & Hsel & _).
  destruct (Hsel eq_refl) as (t & o & ht & he & _ & _ & Ht & He & _).
  exists h, ex, ht, he.
  split; [exact Hh|]. split; [exact Hex|]. split; [exact Ht|exact He].
Defined.

(** Every executor of the built diamond has the slot of its output
    variable. *)
Lemma output_slots_are_declared_witness :
  ∃ e (b' : @Build Z),
    makeExecutor (Value := Z) (λ _, 0) diamond
      {| qctx := freshContext; visited := ∅; events := [] |} = inr (e, b')
    ∧ ∀ h ex, objPool (qctx b') !! h = Some ex →
              exist (PlanNode.outputVar (node_ ex)) (qctx b') = true.
Proof.
  destruct (makeExecutor (Value := Z) (λ _, 0) diamond
              {| qctx := freshContext; visited := ∅; events := [] |})
    as [a|[e b']] eqn:Hrun.
  { vm_compute in Hrun. discriminate Hrun. }
  exists e, b'. split; [reflexivity|].
  destruct (output_slots_are_declared (Value := Z) (λ _, 0))
    as (_ & Hbuild & _).
  destruct (Hbuild diamond _ e b' Hrun) as [_ Hslots].
  intros h ex Hex. apply (Hslots h ex); [simpl; lia|exact Hex].
Defined.

(** ** Further examples *)


(** A result that is in the context before the build is there after it. *)
Lemma makeExecutor_declares_empty_slots_witness :
  ∃ e (b' : @Build Z),
    makeExecutor (λ _, 0) diamond
      {| qctx := setResult "v1" {| value := 7; iter := Iterator.kDefault |}
                   freshContext;
         visited := ∅; events := [] |} = inr (e, b')
    ∧ ectx (qctx b') !! "v1"
      = Some (Some {| value := 7; iter := Iterator.kDefault |}).
Proof.
  destruct (makeExecutor (Value := Z) (λ _, 0) diamond
              {| qctx := setResult "v1"
                           {| value := 7; iter := Iterator.kDefault |}
                           freshContext;
                 visited := ∅; events := [] |})
    as [a|[e b']] eqn:Hrun.
  { vm_compute in Hrun. discriminate Hrun. }
  exists e, b'. split; [reflexivity|].
  destruct (makeExecutor_declares_empty_slots (λ _, 0) diamond _ e b' "v1"
              Hrun) as [Hkeep _].
  rewrite Hkeep.
  - apply lookup_insert_eq.
  - simpl. rewrite lookup_insert_eq. discriminate.
Defined.

(** The plan with a repeated id is built without a dangling pointer. *)
Lemma create_leaves_no_dangling_pointer_witness :
  ∃ e (b' : @Build Z),
    create (λ _, 0) clash freshContext = inr (e, b')
    ∧ (e < length (objPool (qctx b')))%nat.
Proof.
  destruct (create (Value := Z) (λ _, 0) clash freshContext)
    as [a|[e b']] eqn:Hrun.
  { vm_compute in Hrun. discriminate Hrun. }
  exists e, b'. split; [reflexivity|].
  by destruct (create_leaves_no_dangling_pointer (λ _, 0) clash freshContext
                 e b' Hrun) as (He & _).
Defined.

Lemma create_executors_mirror_their_nodes_witness :
  ∃ e (b' : @Build Z),
    create (λ _, 0) clash freshContext = inr (e, b')
    ∧ ∃ ex, objPool (qctx b') !! e = Some ex ∧ id_ ex = PlanNode.id clash.
Proof.
  destruct (create (Value := Z) (λ _, 0) clash freshContext)
    as [a|[e b']] eqn:Hrun.
  { vm_compute in Hrun. discriminate Hrun. }
  exists e, b'. split; [reflexivity|].
  by destruct (create_executors_mirror_their_nodes (λ _, 0) clash
                 freshContext e b' Hrun) as (He & _).
Defined.

Lemma create_allocates_one_executor_per_id_witness :
  ∃ e (b' : @Build Z),
    unique_ids diamond
    ∧ create (λ _, 0) diamond freshContext = inr (e, b')
    ∧ length (objPool (qctx b')) = (0 + base.size (visited b'))%nat.
Proof.
  destruct (create (Value := Z) (λ _, 0) diamond freshContext)
    as [a|[e b']] eqn:Hrun.
  { vm_compute in Hrun. discriminate Hrun. }
  exists e, b'. split; [exact diamond_unique_ids|]. split; [reflexivity|].
  by destruct (create_allocates_one_executor_per_id (λ _, 0) diamond
                 freshContext e b' diamond_unique_ids Hrun) as (_ & Hlen).
Defined.

Lemma makeExecutor_again_allocates_nothing_witness :
  ∃ e (b' : @Build Z),
    unique_ids diamond
    ∧ create (λ _, 0) diamond freshContext = inr (e, b')
    ∧ reach diamond shared
    ∧ ∃ h b'', makeExecutor (λ _, 0) shared b' = inr (h, b'')
               ∧ qctx b'' = qctx b'.
Proof.
  destruct (create (Value := Z) (λ _, 0) diamond freshContext)
    as [a|[e b']] eqn:Hrun.
  { vm_compute in Hrun. discriminate Hrun. }
  assert (reach diamond shared) as Hreach.
  { eapply reach_child; [by left|]. eapply reach_child; [by left|].
    constructor. }
  exists e, b'. split; [exact diamond_unique_ids|]. split; [reflexivity|].
  split; [exact Hreach|].
  destruct (makeExecutor_again_allocates_nothing (λ _, 0) diamond
              freshContext e b' shared diamond_unique_ids Hrun Hreach)
    as (h & b'' & Hagain & _ & Hq & _).
  exists h, b''. split; [exact Hagain|exact Hq].
Defined.

Lemma create_returns_iff_plan_is_supported_witness :
  unique_ids diamond
  ∧ ∀ m, reach diamond m → supported m ∧ has_controls m.
Proof.
  split; [exact diamond_unique_ids|].
  apply (create_returns_iff_plan_is_supported (Value := Z) (λ _, 0) diamond
           freshContext diamond_unique_ids).
  destruct (create (Value := Z) (λ _, 0) diamond freshContext)
    as [a|[e b']] eqn:Hrun.
  { vm_compute in Hrun. discriminate Hrun. }
  by exists e, b'.
Defined.

Lemma kind_dispatch_is_one_to_one_witness :
  executorClass PlanNode.kSelect = executorClass PlanNode.kSelect
  ∧ PlanNode.kSelect = PlanNode.kSelect.
Proof.
  split; [reflexivity|].
  by apply (kind_dispatch_is_one_to_one PlanNode.kSelect PlanNode.kSelect).
Defined.

Lemma finish_adds_no_slot_after_build_witness :
  ∃ e (b' : @Build Z) ex,
    makeExecutor (λ _, 0) diamond
      {| qctx := freshContext; visited := ∅; events := [] |} = inr (e, b')
    ∧ objPool (qctx b') !! e = Some ex
    ∧ dom (ectx (finish (λ _, 1)
                   {| value := 7; iter := Iterator.kDefault |} ex
                   (qctx b')).1.2)
      = dom (ectx (qctx b')).
Proof.
  destruct (makeExecutor (Value := Z) (λ _, 0) diamond
              {| qctx := freshContext; visited := ∅; events := [] |})
    as [a|[e b']] eqn:Hrun.
  { vm_compute in Hrun. discriminate Hrun. }
  destruct (makeExecutor_refs (λ _, 0) 0 diamond _ e b'
              (refs_ok_start 0 freshContext (Nat.le_refl _)) Hrun)
    as (_ & ex & Hex & _).
  exists e, b', ex. split; [reflexivity|]. split; [exact Hex|].
  by destruct (finish_adds_no_slot_after_build (λ _, 1) (λ _, 0) diamond _
                 e b' e ex {| value := 7; iter := Iterator.kDefault |}
                 Hrun ltac:(simpl; lia) Hex) as [Hdom _].
Defined.
